(** * ScrapeCheckiO: a shallow embedding of [scrape_checkio.py]

    The script drives a browser through the CheckiO site, reads the saved
    solution of every completed mission and writes it below the current
    directory, one folder per section.  The embedding keeps the functions of
    the script under their own names and threads one [world] value through
    them: the file system and working directory, the remote site as the
    browser shows it, the script's module-level globals and a log of the
    observable actions.

    Conventions.
    - A Python [str] is a Rocq [string]; its characters are read as the code
      points 0..255.
    - Text files hold exactly the characters printed to them (the locale
      encoding is the identity and the line separator is LF).
    - The disk is a tree of directories and regular files, without links
      and without permissions. What can run out is the room for file
      contents, counted in characters; a [print] that finds too little room
      writes what fits and fails.
    - The remote site and the clock are oracles: the reads of the editor
      and of the clock are answered in the order the run makes them.
    - The exceptions are those the script names or provokes by its own
      constructs: [OSError] and its subclasses, the two Selenium exceptions
      it imports, [AttributeError] from [re.match(..).group(..)] on a failed
      match, [NameError] for an unbound global and [SystemExit]. *)

From Equations Require Import Equations.
From stdpp Require Import base option list strings gmap pretty.
From Stdlib Require Import Ascii String Lia.

Set Default Proof Using "Type".
Local Open Scope string_scope.
Local Open Scope list_scope.

(** ** Characters and strings *)

Module Str.

Definition chr (n : nat) : ascii := ascii_of_nat n.
Definition ord (c : ascii) : nat := nat_of_ascii c.

Definition LF : ascii := chr 10.
Definition CR : ascii := chr 13.
Definition SLASH : ascii := chr 47.
Definition DQUOTE : ascii := chr 34.

Definition str1 (c : ascii) : string := String c EmptyString.

(** [str.isalnum] of one character, on the code points 0..255:
    [c.isalpha() or c.isdecimal() or c.isdigit() or c.isnumeric()]. *)
Definition char_isalnum (c : ascii) : bool :=
  let n := ord c in
  (((48 <=? n) && (n <=? 57)) || ((65 <=? n) && (n <=? 90))
   || ((97 <=? n) && (n <=? 122))
   || (n =? 170) || (n =? 178) || (n =? 179) || (n =? 181)
   || (n =? 185) || (n =? 186) || ((188 <=? n) && (n <=? 190))
   || ((192 <=? n) && (n <=? 214)) || ((216 <=? n) && (n <=? 246))
   || ((248 <=? n) && (n <=? 255)))%nat.

(** The line boundaries of [str.splitlines] among the code points 0..255. *)
Definition is_linebreak (c : ascii) : bool :=
  let n := ord c in
  ((n =? 10) || (n =? 11) || (n =? 12) || (n =? 13)
   || (n =? 28) || (n =? 29) || (n =? 30) || (n =? 133))%nat.

Definition is_lf (c : ascii) : bool := (ord c =? 10)%nat.
Definition is_cr (c : ascii) : bool := (ord c =? 13)%nat.

Fixpoint filter (p : ascii -> bool) (s : string) : string :=
  match s with
  | EmptyString => EmptyString
  | String c s' => if p c then String c (filter p s') else filter p s'
  end.

Fixpoint forallb (p : ascii -> bool) (s : string) : bool :=
  match s with
  | EmptyString => true
  | String c s' => p c && forallb p s'
  end.

Definition snoc (s : string) (c : ascii) : string := s +:+ str1 c.

Definition is_empty (s : string) : bool :=
  match s with EmptyString => true | _ => false end.

Definition eqb (a b : string) : bool := bool_decide (a = b).

(** [s.startswith(p)] *)
Fixpoint startswith (p s : string) : bool :=
  match p, s with
  | EmptyString, _ => true
  | String a p', String b s' => bool_decide (a = b) && startswith p' s'
  | String _ _, EmptyString => false
  end.

(** [s.splitlines()]: [cur] is the line being read. A CR directly
    followed by LF is one boundary; a last line without boundary is kept
    when it is not empty. *)
Fixpoint splitlines_from (cur : string) (s : string) : list string :=
  match s with
  | EmptyString => if is_empty cur then [] else [cur]
  | String c s' =>
      if is_cr c then
        match s' with
        | String d s'' =>
            if is_lf d then cur :: splitlines_from EmptyString s''
            else cur :: splitlines_from EmptyString s'
        | EmptyString => [cur]
        end
      else if is_linebreak c then cur :: splitlines_from EmptyString s'
      else splitlines_from (snoc cur c) s'
  end.

Definition splitlines (s : string) : list string :=
  splitlines_from EmptyString s.

(** Reading in text mode with [newline=None]: CR LF and a lone CR arrive
    as LF. *)
Fixpoint universal_newlines (s : string) : string :=
  match s with
  | EmptyString => EmptyString
  | String c s' =>
      if is_cr c then
        match s' with
        | String d s'' =>
            if is_lf d then String LF (universal_newlines s'')
            else String LF (universal_newlines s')
        | EmptyString => str1 LF
        end
      else String c (universal_newlines s')
  end.

(** [s.split('/')]: the components of a path name, empty ones included. *)
Fixpoint split_slash_from (cur : string) (s : string) : list string :=
  match s with
  | EmptyString => [cur]
  | String c s' =>
      if bool_decide (c = SLASH) then cur :: split_slash_from EmptyString s'
      else split_slash_from (snoc cur c) s'
  end.

Definition split_slash (s : string) : list string :=
  split_slash_from EmptyString s.

End Str.

(** ** Exceptions and results *)

(** [OSError] (of which [IOError] is an alias) and the subclasses the
    operating system raises here. [PlainOSError] is [IOError()] as the
    script raises it; [NoSpaceError] is [OSError(ENOSPC)]. *)
Inductive oserror :=
| PlainOSError
| FileNotFoundError
| NotADirectoryError
| FileExistsError
| IsADirectoryError
| NoSpaceError.

Inductive exn :=
| OSError (k : oserror)
| NoSuchElementException
| StaleElementReferenceException
| AttributeError
| NameError (name : string)
| SystemExit (msg : string).

Inductive result (A : Type) :=
| Ok (a : A)
| Raise (e : exn).
Arguments Ok {A} a.
Arguments Raise {A} e.

#[global] Instance oserror_eq_dec : EqDecision oserror.
Proof. solve_decision. Defined.

(** ** The world *)

(** Absolute path: the components below the root. *)
Abbreviation path := (list string) (only parsing).

Inductive node :=
| Dir
| File (content : string).

Record mission := Mission { title : string; url_name : string }.

(** What one read of the editor's [ace_line] elements and of their text
    gives: the lines, or the stale-element condition. *)
Inductive read_outcome :=
| ReadLines (lines : list string)
| ReadStale.

(** One [block_progress_main] element of the listing: the title of its
    [img] and the href of its [a], [None] when the element is missing. *)
Record task_elem := Task { task_img : option string; task_href : option string }.

(** One [section] element: the text of its [section-header], [None] when
    it has none, and its tasks. *)
Record section_elem := Section_ {
  section_header : option string;
  section_tasks : list task_elem }.

(** The remote site and the clock as this run observes them. Reads of the
    editor and of the clock are numbered in the order the run makes them. *)
Record site := Site {
  login_elems : string -> bool;
  profile_url : string;
  listing : list section_elem;
  ace_reads : nat -> read_outcome;
  now_c : nat -> string }.

(** The one webdriver instance. *)
Inductive webdriver := Firefox.

Inductive event :=
| Print (s : string)
| Input (prompt : string)
| BrowserGet (url : string)
| AddCookie (name value : string)
| SendKeys (elem text : string)
| Click (elem : string)
| FindLines (cls : string)
| Sleep (secs : nat)
| Mkdir (p : path)
| Chdir (p : path)
| OpenW (p : path)
| Append (p : path) (s : string)
| Unlink (p : path).

Record world := World {
  remote : site;
  cwd : path;
  fs : gmap path node;
  free : nat;
  reads : nat;
  ticks : nat;
  g_VERBOSE : bool;
  g_browser : option webdriver;
  g_mission_list : option (list mission);
  log : list event }.

Definition set_cwd (d : path) (w : world) : world :=
  World (remote w) d (fs w) (free w) (reads w) (ticks w)
        (g_VERBOSE w) (g_browser w) (g_mission_list w) (log w).

Definition set_disk (m : gmap path node) (n : nat) (w : world) : world :=
  World (remote w) (cwd w) m n (reads w) (ticks w)
        (g_VERBOSE w) (g_browser w) (g_mission_list w) (log w).

Definition set_reads (n : nat) (w : world) : world :=
  World (remote w) (cwd w) (fs w) (free w) n (ticks w)
        (g_VERBOSE w) (g_browser w) (g_mission_list w) (log w).

Definition set_ticks (n : nat) (w : world) : world :=
  World (remote w) (cwd w) (fs w) (free w) (reads w) n
        (g_VERBOSE w) (g_browser w) (g_mission_list w) (log w).

Definition set_VERBOSE (b : bool) (w : world) : world :=
  World (remote w) (cwd w) (fs w) (free w) (reads w) (ticks w)
        b (g_browser w) (g_mission_list w) (log w).

Definition set_browser (b : option webdriver) (w : world) : world :=
  World (remote w) (cwd w) (fs w) (free w) (reads w) (ticks w)
        (g_VERBOSE w) b (g_mission_list w) (log w).

Definition set_mission_list (l : option (list mission)) (w : world) : world :=
  World (remote w) (cwd w) (fs w) (free w) (reads w) (ticks w)
        (g_VERBOSE w) (g_browser w) l (log w).

Definition emit (e : event) (w : world) : world :=
  World (remote w) (cwd w) (fs w) (free w) (reads w) (ticks w)
        (g_VERBOSE w) (g_browser w) (g_mission_list w) (log w ++ [e]).

(** ** The monad of the script: state and exceptions *)

Definition M (A : Type) : Type := world -> result A * world.

Definition ret {A} (a : A) : M A := fun w => (Ok a, w).

Definition raise {A} (e : exn) : M A := fun w => (Raise e, w).

Definition bind {A B} (m : M A) (k : A -> M B) : M B :=
  fun w => match m w with
           | (Ok a, w') => k a w'
           | (Raise e, w') => (Raise e, w')
           end.

(** [try: m except ...: h]. The handler [h] says for each exception
    whether the [except] clause takes it. *)
Definition try_except {A} (m : M A) (h : exn -> option (M A)) : M A :=
  fun w => match m w with
           | (Ok a, w') => (Ok a, w')
           | (Raise e, w') =>
               match h e with
               | Some k => k w'
               | None => (Raise e, w')
               end
           end.

Definition modify (f : world -> world) : M unit := fun w => (Ok tt, f w).

Definition gets {A} (f : world -> A) : M A := fun w => (Ok (f w), w).

Notation "'let*' x ':=' m 'in' k" := (bind m (fun x => k))
  (at level 10, x name, m at level 100, k at level 200, only parsing).
Notation "m ';;' k" := (bind m (fun _ => k))
  (at level 100, k at level 200, right associativity, only parsing).

Definition when (b : bool) (m : M unit) : M unit := if b then m else ret tt.

(** [for x in l: body x] *)
Fixpoint for_each {A} (l : list A) (body : A -> M unit) : M unit :=
  match l with
  | [] => ret tt
  | x :: l' => body x ;; for_each l' body
  end.

Definition print (s : string) : M unit := modify (emit (Print s)).

(** [except IOError:] and [except OSError:] take every [OSError]. *)
Definition except_IOError {A} (k : oserror -> M A) (e : exn) : option (M A) :=
  match e with OSError o => Some (k o) | _ => None end.

(** ** The operating system: directories and files *)

Definition is_dots (c : string) : bool :=
  Str.eqb c "" || Str.eqb c "." || Str.eqb c "..".

(** One component further: nothing for an empty one or [.], the parent
    for [..], the child otherwise. *)
Definition step (cur : path) (c : string) : path :=
  if Str.eqb c "" || Str.eqb c "." then cur
  else if Str.eqb c ".." then removelast cur
  else cur ++ [c].

(** Where a path name starts: at the root when it begins with a slash. *)
Definition start (w : world) (name : string) : path :=
  if Str.startswith "/" name then [] else cwd w.

(** Follow components through existing directories. *)
Fixpoint walk (m : gmap path node) (cur : path) (comps : list string)
  {struct comps} : oserror + path :=
  match m !! cur with
  | Some Dir =>
      match comps with
      | [] => inr cur
      | c :: rest => walk m (step cur c) rest
      end
  | Some (File _) => inl NotADirectoryError
  | None => inl FileNotFoundError
  end.

(** The path a file name denotes: all components but the last are followed
    as directories, the last one names the entry. *)
Definition locate (w : world) (name : string) : oserror + path :=
  if Str.is_empty name then inl FileNotFoundError
  else
    let comps := Str.split_slash name in
    match walk (fs w) (start w name) (removelast comps) with
    | inl e => inl e
    | inr d =>
        let base := List.last comps "" in
        if is_dots base then
          match walk (fs w) d [base] with
          | inl e => inl e
          | inr _ => inl IsADirectoryError
          end
        else inr (d ++ [base])
    end.

(** The recursion of [os.makedirs(name, exist_ok=True)]: components are
    taken from the left, a missing one is created, an existing directory is
    entered, a regular file in the way is an error. *)
Fixpoint mkdirs (cur : path) (comps : list string) {struct comps} : M unit :=
  fun w =>
    match fs w !! cur with
    | Some Dir =>
        match comps with
        | [] => (Ok tt, w)
        | c :: rest =>
            if is_dots c then mkdirs (step cur c) rest w
            else
              match fs w !! (cur ++ [c]) with
              | Some Dir => mkdirs (cur ++ [c]) rest w
              | Some (File _) =>
                  (Raise (OSError (if List.forallb Str.is_empty rest
                                   then FileExistsError
                                   else NotADirectoryError)), w)
              | None =>
                  mkdirs (cur ++ [c]) rest
                    (emit (Mkdir (cur ++ [c]))
                       (set_disk (<[cur ++ [c] := Dir]> (fs w)) (free w) w))
              end
        end
    | Some (File _) => (Raise (OSError NotADirectoryError), w)
    | None => (Raise (OSError FileNotFoundError), w)
    end.

(** [os.makedirs(name, exist_ok=True)] *)
Definition os_makedirs (name : string) : M unit :=
  fun w =>
    if Str.is_empty name then (Raise (OSError FileNotFoundError), w)
    else mkdirs (start w name) (Str.split_slash name) w.

(** [os.chdir(name)] *)
Definition os_chdir (name : string) : M unit :=
  fun w =>
    if Str.is_empty name then (Raise (OSError FileNotFoundError), w)
    else
      match walk (fs w) (start w name) (Str.split_slash name) with
      | inl e => (Raise (OSError e), w)
      | inr d => (Ok tt, emit (Chdir d) (set_cwd d w))
      end.

(** [os.getcwd()]: the working directory as an absolute path name, kept
    here as the list of its components. *)
Definition os_getcwd : M path := gets cwd.

(** [os.chdir] on a name that [os.getcwd] returned. *)
Definition os_chdir_abs (d : path) : M unit :=
  fun w =>
    match fs w !! d with
    | Some Dir => (Ok tt, emit (Chdir d) (set_cwd d w))
    | Some (File _) => (Raise (OSError NotADirectoryError), w)
    | None => (Raise (OSError FileNotFoundError), w)
    end.

(** [with open(name, mode='r') as f: f.read()] *)
Definition read_text (name : string) : M string :=
  fun w =>
    match locate w name with
    | inl e => (Raise (OSError e), w)
    | inr p =>
        match fs w !! p with
        | Some (File c) => (Ok (Str.universal_newlines c), w)
        | Some Dir => (Raise (OSError IsADirectoryError), w)
        | None => (Raise (OSError FileNotFoundError), w)
        end
    end.

(** [open(name, mode='w')]: a new empty file, or the old one truncated,
    whose space becomes free again. The file object is the path. *)
Definition open_w (name : string) : M path :=
  fun w =>
    match locate w name with
    | inl e => (Raise (OSError e), w)
    | inr p =>
        match fs w !! p with
        | Some (File c) =>
            (Ok p, emit (OpenW p)
                     (set_disk (<[p := File ""]> (fs w))
                        (free w + String.length c) w))
        | Some Dir => (Raise (OSError IsADirectoryError), w)
        | None =>
            (Ok p, emit (OpenW p)
                     (set_disk (<[p := File ""]> (fs w)) (free w) w))
        end
    end.

Fixpoint str_take (n : nat) (s : string) : string :=
  match n, s with
  | S n', String c s' => String c (str_take n' s')
  | _, _ => EmptyString
  end.

(** [print(line, file=f)]: the line and a line feed are appended. When the
    device has too little room, what fits is written and the call fails. *)
Definition print_to (f : path) (line : string) : M unit :=
  fun w =>
    match fs w !! f with
    | Some (File c) =>
        let data := line +:+ Str.str1 Str.LF in
        if (String.length data <=? free w)%nat then
          (Ok tt, emit (Append f data)
                    (set_disk (<[f := File (c +:+ data)]> (fs w))
                       (free w - String.length data) w))
        else
          (Raise (OSError NoSpaceError),
           emit (Append f (str_take (free w) data))
             (set_disk (<[f := File (c +:+ str_take (free w) data)]> (fs w))
                0 w))
    | Some Dir => (Raise (OSError IsADirectoryError), w)
    | None => (Raise (OSError FileNotFoundError), w)
    end.

(** [os.remove(name)] *)
Definition os_remove (name : string) : M unit :=
  fun w =>
    match locate w name with
    | inl e => (Raise (OSError e), w)
    | inr p =>
        match fs w !! p with
        | Some (File c) =>
            (Ok tt, emit (Unlink p)
                      (set_disk (delete p (fs w))
                         (free w + String.length c) w))
        | Some Dir => (Raise (OSError IsADirectoryError), w)
        | None => (Raise (OSError FileNotFoundError), w)
        end
    end.

(** ** The browser and the clock *)

Definition browser_get (browser : webdriver) (url : string) : M unit :=
  modify (emit (BrowserGet url)).

(** [lines = browser.find_elements_by_class_name('ace_line')] followed by
    [[line.text for line in lines]]: the next read of the editor. *)
Definition find_ace_lines_text (browser : webdriver) : M (list string) :=
  fun w =>
    let w' := emit (FindLines "ace_line") (set_reads (S (reads w)) w) in
    match ace_reads (remote w) (reads w) with
    | ReadLines ls => (Ok ls, w')
    | ReadStale => (Raise StaleElementReferenceException, w')
    end.

Definition time_sleep (secs : nat) : M unit := modify (emit (Sleep secs)).

(** [datetime.now().strftime('%c')]: the next reading of the clock. *)
Definition datetime_now_c : M string :=
  fun w => (Ok (now_c (remote w) (ticks w)), set_ticks (S (ticks w)) w).

(** ** The script *)

Definition USER_PAGE : string := "https://checkio.org/user/".
Definition LOGIN_PAGE : string := "https://checkio.org/profile/login/".
Definition MISSIONS_PAGE (name : string) : string :=
  "https://checkio.org/user/" +:+ name +:+ "/list/".
Definition SOLUTION_PAGE (name : string) : string :=
  "https://checkio.org/mission/" +:+ name +:+ "/solve/".

Definition PAGE_RETRIES : nat := 3.
Definition RETRY_DELAY_SECS : nat := 5.

(** The [while attempts <= PAGE_RETRIES] loop of [get_solution], entered
    with the current value of [attempts]. *)
Equations? get_solution_loop (browser : webdriver) (attempts : nat)
  : M (option (list string)) by wf (S PAGE_RETRIES - attempts) lt :=
get_solution_loop browser attempts with decide (attempts <= PAGE_RETRIES) => {
  | left _ =>
      try_except
        (let* lines := find_ace_lines_text browser in
         ret (Some lines))
        (fun e =>
           match e with
           | StaleElementReferenceException =>
               Some (let* v := gets g_VERBOSE in
                     when v (print ("Attempt " +:+ pretty (attempts + 1)
                                    +:+ " failed, page not ready")) ;;
                     time_sleep RETRY_DELAY_SECS ;;
                     get_solution_loop browser (attempts + 1))
           | _ => None
           end)
  | right _ =>
      let* v := gets g_VERBOSE in
      when v (print ("Failed after " +:+ pretty attempts +:+ " attempts")) ;;
      ret None }.
Proof. lia. Qed.

Definition get_solution (browser : webdriver) (mission : string)
  : M (option (list string)) :=
  let mission_url := SOLUTION_PAGE mission in
  let* v := gets g_VERBOSE in
  when v (print ("Downloading: " +:+ mission_url)) ;;
  browser_get browser mission_url ;;
  get_solution_loop browser 0.

(** [raise IOError()] *)
Definition raise_IOError {A} : M A := raise (OSError PlainOSError).

(** [create_and_switch_to_dir]: the two named subclasses are replaced by a
    plain [IOError]; any other [OSError] passes as it is. *)
Definition create_and_switch_to_dir (dir_path : string) : M unit :=
  try_except
    (os_makedirs dir_path ;;
     os_chdir dir_path)
    (fun e =>
       match e with
       | OSError NotADirectoryError | OSError FileNotFoundError =>
           Some raise_IOError
       | _ => None
       end).

(** [not downloaded], for [None] and for the empty list. *)
Definition falsy_lines (downloaded : option (list string)) : bool :=
  match downloaded with
  | None | Some [] => true
  | Some (_ :: _) => false
  end.

(** ['# "{}" downloaded: {}'.format(title, download_time)] *)
Definition header_line (title download_time : string) : string :=
  "# " +:+ Str.str1 Str.DQUOTE +:+ title +:+ Str.str1 Str.DQUOTE
  +:+ " downloaded: " +:+ download_time.

Definition write_solution_to_file (browser : webdriver) (mission : mission)
  : M unit :=
  let* downloaded := get_solution browser (url_name mission) in
  if falsy_lines downloaded then raise_IOError
  else
    let* download_time := datetime_now_c in
    let code := header_line (title mission) download_time
                  :: default [] downloaded in
    let filename := url_name mission +:+ ".py" in
    (* if the file exists and is identical, don't touch it *)
    let* identical :=
      try_except
        (let* text := read_text filename in
         ret (bool_decide (Str.splitlines text = code)))
        (except_IOError (fun _ => ret false)) in
    if identical then ret tt
    else
      (* overwrite the file with the scraped code *)
      try_except
        (let* f := open_w filename in
         for_each code (fun line => print_to f line))
        (except_IOError (fun o =>
           (* couldn't save the file - clean up and let the caller know *)
           os_remove filename ;;
           raise (OSError o))).

(** Reading a module-level name that no assignment has bound yet. *)
Definition global {A} (name : string) (get : world -> option A) : M A :=
  fun w => match get w with
           | Some v => (Ok v, w)
           | None => (Raise (NameError name), w)
           end.

(** The [for mission in mission_list] loop of [download_section]; [errors]
    is the list built so far. *)
Fixpoint download_section_loop (section_name : string) (ms : list mission)
  (errors : list string) : M (list string) :=
  match ms with
  | [] => ret errors
  | mission :: rest =>
      let* errors :=
        try_except
          (let* browser := global "browser" g_browser in
           write_solution_to_file browser mission ;;
           ret errors)
          (except_IOError (fun _ =>
             ret (errors ++ [section_name +:+ ": " +:+ title mission]))) in
      download_section_loop section_name rest errors
  end.

(** [download_section]: the body reads the module-level [mission_list] and
    [browser]; its parameter [missions] is not used. *)
Definition download_section (section_name : string) (missions : list mission)
  : M (list string) :=
  let* counted := global "mission_list" g_mission_list in
  print ("Getting section (" +:+ section_name +:+ ") with "
         +:+ pretty (List.length counted) +:+ " missions") ;;
  (* create the section's folder, fail if unable *)
  let* original_dir := os_getcwd in
  let dir_name := Str.filter Str.char_isalnum section_name in
  let* entered :=
    try_except
      (create_and_switch_to_dir dir_name ;; ret true)
      (except_IOError (fun _ => ret false)) in
  if negb entered then
    ret ["Unable to create folder for section: " +:+ section_name]
  else
    let* mission_list := global "mission_list" g_mission_list in
    let* errors := download_section_loop section_name mission_list [] in
    (* move back up to the original folder *)
    os_chdir_abs original_dir ;;
    ret errors.

(** *** Logging in and reading the catalogue *)

Definition truthy (s : option string) : bool :=
  match s with
  | Some (String _ _) => true
  | _ => false
  end.

Definition find_element (browser : webdriver) (elem : string) : M unit :=
  fun w => if login_elems (remote w) elem then (Ok tt, w)
           else (Raise NoSuchElementException, w).

Definition get_browser (sessionid user password : option string)
  : M webdriver :=
  let browser := Firefox in
  browser_get browser USER_PAGE ;;
  if truthy sessionid then
    modify (emit (AddCookie "sessionid" (default "" sessionid))) ;;
    ret browser
  else
    let* done :=
      if truthy user && truthy password then
        try_except
          (find_element browser "id_username" ;;
           modify (emit (SendKeys "id_username" (default "" user))) ;;
           find_element browser "id_password" ;;
           modify (emit (SendKeys "id_password" (default "" password))) ;;
           find_element browser "abuth__btn" ;;
           modify (emit (Click "abuth__btn")) ;;
           ret true)
          (fun e =>
             match e with
             | NoSuchElementException =>
                 Some (print "ERROR: couldn't find expected elements on the login page, you need to log in manually" ;;
                       ret false)
             | _ => None
             end)
      else ret false in
    if (done : bool) then ret browser
    else
      modify (emit (Input (Str.str1 Str.LF +:+ "Please log in to the CheckiO site, then hit Enter to continue."))) ;;
      ret browser.

(** The literal part of a pattern against the start of [s]; a dot takes any
    character but a line feed. The rest of [s] is returned. *)
Fixpoint re_prefix (pat s : string) : option string :=
  match pat with
  | EmptyString => Some s
  | String p pat' =>
      match s with
      | EmptyString => None
      | String c s' =>
          if (if bool_decide (p = "."%char) then negb (Str.is_lf c)
              else bool_decide (c = p))
          then re_prefix pat' s'
          else None
      end
  end.

(** The group [(.*?)] followed by a slash: the characters up to the first
    slash, none of them a line feed. *)
Fixpoint re_lazy_to_slash (cur s : string) : option string :=
  match s with
  | EmptyString => None
  | String c s' =>
      if bool_decide (c = Str.SLASH) then Some cur
      else if Str.is_lf c then None
      else re_lazy_to_slash (Str.snoc cur c) s'
  end.

(** [re.match(prefix + '(?P<g>.*?)/', s)] and its group, [None] for no
    match. *)
Definition re_match_group (prefix s : string) : option string :=
  match re_prefix prefix s with
  | Some rest => re_lazy_to_slash EmptyString rest
  | None => None
  end.

(** The two patterns of the script, each up to its group; the group and the
    slash that ends it are in [re_match_group]. *)
Definition USERNAME_PATTERN : string := "https://checkio.org/user/".
Definition MISSION_NAME_PATTERN : string := "https://checkio.org/mission/".

Definition get_username (browser : webdriver) : M (option string) :=
  browser_get browser USER_PAGE ;;
  let* current_url := gets (fun w => profile_url (remote w)) in
  try_except
    (match re_match_group USERNAME_PATTERN current_url with
     | Some username => ret (Some username)
     | None => raise AttributeError
     end)
    (fun e =>
       match e with
       | AttributeError =>
           Some (when (Str.startswith LOGIN_PAGE current_url)
                   (print "ERROR: It looks like you're not logged in.") ;;
                 ret None)
       | _ => None
       end).

(** [d[k] = v] on a dict, kept in insertion order. *)
Fixpoint dict_set {V} (d : list (string * V)) (k : string) (v : V)
  : list (string * V) :=
  match d with
  | [] => [(k, v)]
  | (k', v') :: d' =>
      if Str.eqb k' k then (k, v) :: d' else (k', v') :: dict_set d' k v
  end.

Definition get_task (task : task_elem) : M mission :=
  match task_img task with
  | None => raise NoSuchElementException
  | Some task_title =>
      match task_href task with
      | None => raise NoSuchElementException
      | Some href =>
          match re_match_group MISSION_NAME_PATTERN href with
          | None => raise AttributeError
          | Some task_code => ret (Mission task_title task_code)
          end
      end
  end.

Fixpoint get_tasks (tasks : list task_elem) (task_list : list mission)
  : M (list mission) :=
  match tasks with
  | [] => ret task_list
  | task :: rest =>
      let* mission := get_task task in
      get_tasks rest (task_list ++ [mission])
  end.

Fixpoint get_sections (sections : list section_elem)
  (section_list : list (string * list mission))
  : M (list (string * list mission)) :=
  match sections with
  | [] => ret section_list
  | section :: rest =>
      match section_header section with
      | None => raise NoSuchElementException
      | Some title =>
          let* task_list := get_tasks (section_tasks section) [] in
          get_sections rest (dict_set section_list title task_list)
      end
  end.

Definition get_missions (browser : webdriver) (username : string)
  : M (list (string * list mission)) :=
  let url := MISSIONS_PAGE username in
  browser_get browser url ;;
  let* sections := gets (fun w => listing (remote w)) in
  try_except
    (get_sections sections [])
    (fun e =>
       match e with
       | NoSuchElementException =>
           Some (print "ERROR: unable to parse mission list, unexpected page structure" ;;
                 ret [])
       | _ => None
       end).

(** *** The main program *)

(** The parsed command line: [login] is the pair given to [--login]. *)
Record args := Args {
  dest_dir : option string;
  verbose : bool;
  sessionid : option string;
  login : option (string * string) }.

Definition sys_exit {A} (msg : string) : M A := raise (SystemExit msg).

(** [for mission in mission_list: errors.append("-- {}".format(..))] *)
Definition unknown_section (mission_list : list mission)
  (errors : list string) : list string :=
  fold_left (fun errors mission => errors ++ ["-- " +:+ title mission])
    mission_list (errors ++ ["Unknown section containing:"]).

(** The loop over [missions.items()]; each round binds the module-level
    [mission_list]. *)
Fixpoint main_loop (items : list (string * list mission))
  (errors : list string) : M (list string) :=
  match items with
  | [] => ret errors
  | (section_name, mission_list) :: rest =>
      modify (set_mission_list (Some mission_list)) ;;
      let* errors :=
        if Str.is_empty section_name then
          ret (unknown_section mission_list errors)
        else
          let* section_errors := download_section section_name mission_list in
          ret (errors ++ section_errors) in
      main_loop rest errors
  end.

Definition main (a : args) : M unit :=
  modify (set_VERBOSE (verbose a)) ;;
  (* move to the specified dir, if any *)
  (if truthy (dest_dir a) then
     try_except
       (create_and_switch_to_dir (default "" (dest_dir a)))
       (except_IOError (fun _ =>
          sys_exit "ERROR: Unable to create destination folder"))
   else ret tt) ;;
  let* browser :=
    get_browser (sessionid a) (fst <$> login a) (snd <$> login a) in
  modify (set_browser (Some browser)) ;;
  let* username := get_username browser in
  if negb (truthy username) then
    sys_exit "ERROR: Unable to get username - was login successful?"
  else
    (* get the groups of missions, and download each group to its own folder *)
    let* missions := get_missions browser (default "" username) in
    let* errors := main_loop missions [] in
    print (Str.str1 Str.LF +:+ "Download complete.") ;;
    when (negb (bool_decide (errors = [])))
      (print (Str.str1 Str.LF
              +:+ "There was a problem saving the following missions:") ;;
       for_each errors print).

(** ** Vocabulary of the statements *)

(** The world after [n] more reads of the editor and the actions [l]. *)
Definition progressed (n : nat) (l : list event) (w : world) : world :=
  World (remote w) (cwd w) (fs w) (free w) (reads w + n) (ticks w)
        (g_VERBOSE w) (g_browser w) (g_mission_list w) (log w ++ l).

(** The next [k] reads of the editor all meet the stale condition. *)
Definition stale_run (w : world) (k : nat) : Prop :=
  forall j, j < k -> ace_reads (remote w) (reads w + j) = ReadStale.

(** What [k] failed attempts leave in the log when [attempts] was [a]
    before the first of them: the read, the message when verbose, the
    delay. *)
Fixpoint failed_attempts (v : bool) (a k : nat) : list event :=
  match k with
  | 0 => []
  | S k' =>
      FindLines "ace_line"
      :: (if v then [Print ("Attempt " +:+ pretty (a + 1)
                            +:+ " failed, page not ready")] else [])
      ++ Sleep RETRY_DELAY_SECS :: failed_attempts v (a + 1) k'
  end.

(** What [get_solution] logs before its loop. *)
Definition navigation (v : bool) (mission : string) : list event :=
  (if v then [Print ("Downloading: " +:+ SOLUTION_PAGE mission)] else [])
  ++ [BrowserGet (SOLUTION_PAGE mission)].

Definition is_sleep (e : event) : bool :=
  match e with Sleep _ => true | _ => false end.

Definition is_read (e : event) : bool :=
  match e with FindLines _ => true | _ => false end.

(** A name of one proper component: not empty, not [.] or [..], and
    without a slash. *)
Definition not_slash (c : ascii) : bool := negb (bool_decide (c = Str.SLASH)).

Definition plain_name (s : string) : bool :=
  negb (is_dots s) && Str.forallb not_slash s.

(** What the prints of [code] put into a file. *)
Fixpoint unlines (code : list string) : string :=
  match code with
  | [] => EmptyString
  | line :: rest => line +:+ Str.str1 Str.LF +:+ unlines rest
  end.

(** The world with the actions [l] added to its log. *)
Definition emits (l : list event) (w : world) : world :=
  World (remote w) (cwd w) (fs w) (free w) (reads w) (ticks w)
        (g_VERBOSE w) (g_browser w) (g_mission_list w) (log w ++ l).

(** The actions that change what is on the disk. *)
Definition is_disk_event (e : event) : bool :=
  match e with
  | Mkdir _ | OpenW _ | Append _ _ | Unlink _ => true
  | _ => false
  end.

(** What [get_solution] logs after its loop has given up. *)
Definition exhausted_note (v : bool) : list event :=
  if v then [Print ("Failed after " +:+ pretty (PAGE_RETRIES + 1)
                    +:+ " attempts")] else [].

(** The world after [os.chdir] into [p], and after [p] was made. *)
Definition entered (p : path) (w : world) : world :=
  emit (Chdir p) (set_cwd p w).

Definition made (p : path) (w : world) : world :=
  emit (Mkdir p) (set_disk (<[p := Dir]> (fs w)) (free w) w).

(** The world after one reading of the clock. *)
Definition stamped (w : world) : world := set_ticks (S (ticks w)) w.

(** The lines [write_solution_to_file] composes when the fetch left the
    world [w1] and gave [ls]. *)
Definition code_of (m : mission) (w1 : world) (ls : list string)
  : list string :=
  header_line (title m) (now_c (remote w1) (ticks w1)) :: ls.

Definition filename_of (m : mission) : string := url_name m +:+ ".py".

(** The disk after [data] went into the file [p]. *)
Definition filled (p : path) (data : string) (n : nat) (w : world) : world :=
  set_disk (<[p := File data]> (fs w)) n w.

Definition is_append_to (p : path) (e : event) : Prop :=
  exists s, e = Append p s.

(** The size of the regular file at [p], zero when there is none. *)
Definition size_at (p : path) (w : world) : nat :=
  match fs w !! p with
  | Some (File c) => String.length c
  | _ => 0
  end.

(** The world after [open(.., 'w')] gave the file [p]. *)
Definition opened (p : path) (w : world) : world :=
  emit (OpenW p) (filled p "" (free w + size_at p w) w).

(** The world after the file [p] was removed, with [n] left free. *)
Definition removed (p : path) (n : nat) (w : world) : world :=
  emit (Unlink p) (set_disk (delete p (fs w)) n w).

(** [f.read().splitlines()] for the file named [name], [None] when the
    open fails. *)
Definition on_disk_lines (name : string) (w : world) : option (list string) :=
  match read_text name w with
  | (Ok text, _) => Some (Str.splitlines text)
  | (Raise _, _) => None
  end.

(** The pages a piece of log loads, in order. *)
Definition loaded (l : list event) : list string :=
  omap (fun e => match e with BrowserGet url => Some url | _ => None end) l.

Definition no_disk_event (l : list event) : Prop :=
  Forall (fun e => is_disk_event e = false) l.

(** [runs w l w']: from [w] to [w'] the actions [l] were logged, the
    working directory, the remote site and the globals are the same, and
    every directory is still there. *)
Definition runs (w : world) (l : list event) (w' : world) : Prop :=
  log w' = log w ++ l
  /\ remote w' = remote w
  /\ cwd w' = cwd w
  /\ g_VERBOSE w' = g_VERBOSE w
  /\ g_browser w' = g_browser w
  /\ g_mission_list w' = g_mission_list w
  /\ (forall d, fs w !! d = Some Dir -> fs w' !! d = Some Dir).

(** The error line of a mission whose download failed. *)
Definition mission_error (section_name : string) (m : mission) : string :=
  section_name +:+ ": " +:+ title m.

Definition folder_error (section_name : string) : string :=
  "Unable to create folder for section: " +:+ section_name.

(** What [download_section] prints first, for a global list of [n]
    missions. *)
Definition section_banner (section_name : string) (n : nat) : event :=
  Print ("Getting section (" +:+ section_name +:+ ") with " +:+ pretty n
         +:+ " missions").

Definition dir_name_of (section_name : string) : string :=
  Str.filter Str.char_isalnum section_name.

(** ** Sample worlds *)

(** A site whose editor is stale twice and then shows two lines; the clock
    stands still. The listing has one section with one mission and one
    section without a name. *)
Definition sample_site : site :=
  Site (fun _ => true) "https://checkio.org/user/bob/"
    [Section_ (Some "Basics")
       [Task (Some "Add") (Some "https://checkio.org/mission/add/")];
     Section_ (Some "")
       [Task (Some "Mystery") (Some "https://checkio.org/mission/myst/")]]
    (fun n => if (n <? 2)%nat then ReadStale else ReadLines ["a=1"; "b=2"])
    (fun _ => "Mon Jan  1 00:00:00 2018").

(** An empty disk with room for [n] characters, nothing read yet, the
    browser bound. *)
Definition fresh_world (s : site) (n : nat) : world :=
  World s [] {[ [] := Dir ]} n 0 0 false (Some Firefox) None [].

Definition sample_world : world := fresh_world sample_site 100.

(** The editor never settles. *)
Definition stale_site : site :=
  Site (fun _ => true) "https://checkio.org/user/bob/" []
    (fun _ => ReadStale) (fun _ => "Mon Jan  1 00:00:00 2018").

Definition add_mission : mission := Mission "Add" "add".

(** [fresh_world] inside the main loop: the global [mission_list] holds
    the one mission [add_mission]. *)
Definition section_world (n : nat) : world :=
  set_mission_list (Some [add_mission]) (fresh_world sample_site n).

(** The lines the main loop adds for the section without a name. *)
Definition unknown_block (mission_list : list mission) : list string :=
  "Unknown section containing:"
  :: map (fun m => "-- " +:+ title m) mission_list.

(** A regular file stands where the folder of the section Basics should
    go. *)
Definition blocked_world : world :=
  set_disk (<[ ["Basics"] := File "not a folder" ]> (fs sample_world)) 100
    sample_world.

Definition mystery_mission : mission := Mission "Mystery" "myst".

(** A string without any line boundary of [str.splitlines]. *)
Definition one_line (s : string) : bool :=
  Str.forallb (fun c => negb (Str.is_linebreak c)) s.

(** A site whose editor shows one element whose text has a line feed
    inside; the clock stands still. *)
Definition broken_line : string := "a" +:+ Str.str1 Str.LF +:+ "b".


(** What the parsing of the listing can come to. *)
Definition listing_outcome {A} (r : result A) : Prop :=
  (exists x, r = Ok x)
  \/ r = Raise NoSuchElementException
  \/ r = Raise AttributeError.

(** The summary the main program prints after its loop. *)
Definition summary (errors : list string) : list event :=
  if bool_decide (errors = []) then []
  else Print (Str.str1 Str.LF
              +:+ "There was a problem saving the following missions:")
       :: map Print errors.

Definition download_complete : event :=
  Print (Str.str1 Str.LF +:+ "Download complete.").

Definition parse_error : event :=
  Print "ERROR: unable to parse mission list, unexpected page structure".



(** A listing whose only section has no header element. *)
Definition headless_site : site :=
  Site (fun _ => true) "https://checkio.org/user/bob/"
    [Section_ None
       [Task (Some "Add") (Some "https://checkio.org/mission/add/")]]
    (fun _ => ReadLines ["a=1"]) (fun _ => "Mon Jan  1 00:00:00 2018").


(** ** Vocabulary of the further properties *)

(** A character a matched group can hold: no slash and no line feed. *)
Definition group_char (c : ascii) : bool := not_slash c && negb (Str.is_lf c).

(** The mission a complete task element stands for, [None] when the image
    or the link is missing or the href does not match. *)
Definition task_mission (task : task_elem) : option mission :=
  match task_img task, task_href task with
  | Some task_title, Some href =>
      Mission task_title <$> re_match_group MISSION_NAME_PATTERN href
  | _, _ => None
  end.

(** A section element with its header and only complete tasks. *)
Definition well_formed_section (section : section_elem) : Prop :=
  is_Some (section_header section)
  /\ Forall (fun task => is_Some (task_mission task)) (section_tasks section).

(** [entry] is what the section element [section] contributes to the
    mapping. *)
Definition section_entry (section : section_elem)
  (entry : string * list mission) : Prop :=
  section_header section = Some entry.1
  /\ Forall2 (fun task m => task_mission task = Some m)
       (section_tasks section) entry.2.

(** A disk action on the path [p], or no disk action at all. *)
Definition concerns (p : list string) (e : event) : Prop :=
  match e with
  | OpenW q | Append q _ | Unlink q => q = p
  | Mkdir _ => False
  | _ => True
  end.

Definition is_print (e : event) : bool :=
  match e with Print _ => true | _ => false end.

Definition is_input (e : event) : bool :=
  match e with Input _ => true | _ => false end.

Definition is_click (e : event) : bool :=
  match e with Click _ => true | _ => false end.

(** The three elements of the login form. *)
Definition login_form (s : site) : bool :=
  login_elems s "id_username" && login_elems s "id_password"
  && login_elems s "abuth__btn".

(** The lines of [code], each ended by a carriage return and a line
    feed. *)
Fixpoint crlf_unlines (code : list string) : string :=
  match code with
  | [] => EmptyString
  | line :: rest =>
      line +:+ String Str.CR (String Str.LF (crlf_unlines rest))
  end.

(** The mapping [d] with the value [v] in the place of the key [k]. *)
Definition replaced {V} (k : string) (v : V) (d : list (string * V))
  : list (string * V) :=
  (fun e => if bool_decide (e.1 = k) then (k, v) else e) <$> d.

(** The system may only have added directories. *)
Definition only_new_dirs (w w' : world) : Prop :=
  forall q, fs w' !! q = fs w !! q
            \/ (fs w !! q = None /\ fs w' !! q = Some Dir).

(** A page on which the header Basics comes twice. *)
Definition repeated_site : site :=
  Site (fun _ => true) "https://checkio.org/user/bob/"
    [Section_ (Some "Basics")
       [Task (Some "Add") (Some "https://checkio.org/mission/add/")];
     Section_ (Some "Basics")
       [Task (Some "Mystery") (Some "https://checkio.org/mission/myst/")]]
    (fun _ => ReadStale) (fun _ => "").

(** A site whose editor shows one line at once and whose clock gives a new
    reading each time. *)
Definition ticking_site : site :=
  Site (fun _ => true) "https://checkio.org/user/bob/" []
    (fun _ => ReadLines ["a=1"]) (fun n => "tick " +:+ pretty n).

(** A site whose editor is empty. *)
Definition empty_editor_site : site :=
  Site (fun _ => true) "https://checkio.org/user/bob/" []
    (fun _ => ReadLines []) (fun _ => "Mon Jan  1 00:00:00 2018").

(** A directory stands where the file of [add_mission] should go. *)
Definition occupied_world : world :=
  set_disk (<[ ["add.py"] := Dir ]> (fs sample_world)) 100 sample_world.


(** A world in which no browser is bound yet. *)
Definition unbound_world : world :=
  set_browser None (section_world 100).

(** The file of [add_mission] is there already, with the two lines of the
    sample site under the header of the standing clock, each line ended by
    a carriage return and a line feed. *)
Definition crlf_world : world :=
  set_disk
    (<[ ["add.py"] :=
          File (crlf_unlines [header_line "Add" "Mon Jan  1 00:00:00 2018";
                              "a=1"; "b=2"]) ]> (fs sample_world))
    100 sample_world.

(** * Properties *)

(** ** The definitions on small inputs *)

Example splitlines_blank_line :
  Str.splitlines ("ab" +:+ Str.str1 Str.LF +:+ Str.str1 Str.LF +:+ "c")
  = ["ab"; ""; "c"].
Proof. reflexivity. Qed.

Example splitlines_crlf :
  Str.splitlines ("a" +:+ Str.str1 Str.CR +:+ Str.str1 Str.LF) = ["a"].
Proof. reflexivity. Qed.

Example splitlines_broken_line :
  Str.splitlines (unlines [broken_line]) = ["a"; "b"].
Proof. reflexivity. Qed.

Example split_slash_components :
  Str.split_slash "/a//b." = [""; "a"; ""; "b."].
Proof. reflexivity. Qed.

Example dir_name_of_section :
  dir_name_of "Elementary 2.0!" = "Elementary20".
Proof. reflexivity. Qed.

Example mission_name_of_href :
  re_match_group MISSION_NAME_PATTERN
    "https://checkio.org/mission/house-password/share/"
  = Some "house-password".
Proof. reflexivity. Qed.

Example username_of_login_page :
  re_match_group USERNAME_PATTERN LOGIN_PAGE = None.
Proof. reflexivity. Qed.

Example dict_set_keeps_position :
  dict_set [("a", 1); ("b", 2)] "a" 3 = [("a", 3); ("b", 2)].
Proof. reflexivity. Qed.

(** A whole run on the sample site: the one mission of Basics is written
    below the destination folder, the mission of the section without a
    name is reported, and the script ends in the destination folder. *)
Example main_on_sample_site :
  let w := fresh_world sample_site 100 in
  let a := Args (Some "out") false (Some "abc") None in
  let w' := snd (main a w) in
  fst (main a w) = Ok tt
  /\ cwd w' = ["out"]
  /\ fs w' !! ["out"; "Basics"; "add.py"]
     = Some (File (unlines [header_line "Add" "Mon Jan  1 00:00:00 2018";
                            "a=1"; "b=2"]))
  /\ filter (fun e => is_sleep e = true) (log w') = [Sleep 5; Sleep 5]
  /\ exists l,
       log w' = l ++ download_complete
                  :: summary ["Unknown section containing:"; "-- Mystery"].
Proof.
  intros w a w'. repeat split; try (vm_compute; reflexivity).
  exists (take 20 (log w')). vm_compute. reflexivity.
Qed.

(** ** The monad and the loop of [get_solution] *)

Lemma get_solution_loop_body browser attempts :
  get_solution_loop browser attempts =
  if decide (attempts <= PAGE_RETRIES) then
    try_except
      (let* lines := find_ace_lines_text browser in
       ret (Some lines))
      (fun e =>
         match e with
         | StaleElementReferenceException =>
             Some (let* v := gets g_VERBOSE in
                   when v (print ("Attempt " +:+ pretty (attempts + 1)
                                  +:+ " failed, page not ready")) ;;
                   time_sleep RETRY_DELAY_SECS ;;
                   get_solution_loop browser (attempts + 1))
         | _ => None
         end)
  else
    let* v := gets g_VERBOSE in
    when v (print ("Failed after " +:+ pretty attempts +:+ " attempts")) ;;
    ret None.
Proof.
  etransitivity; [apply get_solution_loop_equation_1|].
  destruct (decide (attempts <= PAGE_RETRIES)).
  - apply get_solution_loop_clause_1_equation_1.
  - apply get_solution_loop_clause_1_equation_2.
Qed.

Lemma progressed_0 w : progressed 0 [] w = w.
Proof.
  destruct w; unfold progressed; simpl.
  rewrite Nat.add_0_r, app_nil_r. reflexivity.
Qed.

Lemma progressed_progressed n1 l1 n2 l2 w :
  progressed n2 l2 (progressed n1 l1 w) = progressed (n1 + n2) (l1 ++ l2) w.
Proof.
  unfold progressed; simpl. rewrite Nat.add_assoc, app_assoc. reflexivity.
Qed.

Lemma stale_run_S w k :
  stale_run w (S k) ->
  ace_reads (remote w) (reads w) = ReadStale
  /\ stale_run (progressed 1 [] w) k.
Proof.
  intros H. split.
  - rewrite <- (Nat.add_0_r (reads w)). apply H. lia.
  - intros j Hj. simpl. replace (reads w + 1 + j) with (reads w + S j) by lia.
    apply H. lia.
Qed.

(** One failed attempt, then the loop again. *)
Lemma get_solution_loop_stale browser a w :
  a <= PAGE_RETRIES ->
  ace_reads (remote w) (reads w) = ReadStale ->
  get_solution_loop browser a w =
  get_solution_loop browser (a + 1)
    (progressed 1 (failed_attempts (g_VERBOSE w) a 1) w).
Proof.
  intros Ha Hs. rewrite get_solution_loop_body.
  destruct (decide (a <= PAGE_RETRIES)) as [_|]; [|lia].
  unfold try_except, bind, find_ace_lines_text. rewrite Hs. simpl.
  unfold gets, when, print, time_sleep, modify, ret. simpl.
  f_equal. destruct w as [? ? ? ? r ? v ? ? l]; simpl.
  unfold progressed, emit, set_reads; simpl.
  replace (r + 1) with (S r) by lia.
  destruct v; simpl; rewrite <- ?app_assoc; reflexivity.
Qed.

Lemma get_solution_loop_lines browser a w ls :
  a <= PAGE_RETRIES ->
  ace_reads (remote w) (reads w) = ReadLines ls ->
  get_solution_loop browser a w =
  (Ok (Some ls), progressed 1 [FindLines "ace_line"] w).
Proof.
  intros Ha Hs. rewrite get_solution_loop_body.
  destruct (decide (a <= PAGE_RETRIES)) as [_|]; [|lia].
  unfold try_except, bind, find_ace_lines_text. rewrite Hs. simpl.
  unfold ret. f_equal. unfold progressed, emit, set_reads; simpl.
  replace (reads w + 1) with (S (reads w)) by lia. reflexivity.
Qed.

Lemma get_solution_loop_exit browser a w :
  PAGE_RETRIES < a ->
  get_solution_loop browser a w =
  (Ok None,
   progressed 0
     (if g_VERBOSE w
      then [Print ("Failed after " +:+ pretty a +:+ " attempts")] else []) w).
Proof.
  intros Ha. rewrite get_solution_loop_body.
  destruct (decide (a <= PAGE_RETRIES)); [lia|].
  unfold bind, gets, when, print, modify, ret.
  destruct w as [? ? ? ? r ? v ? ? l]; simpl.
  unfold progressed, emit; simpl. rewrite Nat.add_0_r.
  destruct v; simpl; rewrite ?app_nil_r; reflexivity.
Qed.

Lemma failed_attempts_S v a k :
  failed_attempts v a (S k) = failed_attempts v a 1 ++ failed_attempts v (a + 1) k.
Proof. simpl. destruct v; reflexivity. Qed.

(** [k] stale reads, then the lines. *)
Lemma get_solution_loop_success browser k : forall a w ls,
  a + k <= PAGE_RETRIES ->
  stale_run w k ->
  ace_reads (remote w) (reads w + k) = ReadLines ls ->
  get_solution_loop browser a w =
  (Ok (Some ls),
   progressed (k + 1)
     (failed_attempts (g_VERBOSE w) a k ++ [FindLines "ace_line"]) w).
Proof.
  induction k as [|k IH]; intros a w ls Ha Hst Hls.
  - rewrite Nat.add_0_r in Hls.
    rewrite (get_solution_loop_lines _ _ _ ls) by (done || lia). reflexivity.
  - apply stale_run_S in Hst as [H0 Hst].
    rewrite get_solution_loop_stale by (done || lia).
    rewrite (IH _ _ ls).
    + rewrite progressed_progressed. simpl g_VERBOSE.
      rewrite (failed_attempts_S _ a k), <- app_assoc. reflexivity.
    + lia.
    + intros j Hj. simpl. specialize (Hst j Hj). simpl in Hst. exact Hst.
    + simpl. replace (reads w + 1 + k) with (reads w + S k) by lia. exact Hls.
Qed.

(** Stale reads until [attempts] passes [PAGE_RETRIES]. *)
Lemma get_solution_loop_exhausted browser k : forall a w,
  a + k = PAGE_RETRIES + 1 ->
  stale_run w k ->
  get_solution_loop browser a w =
  (Ok None,
   progressed k
     (failed_attempts (g_VERBOSE w) a k
      ++ (if g_VERBOSE w
          then [Print ("Failed after " +:+ pretty (PAGE_RETRIES + 1)
                       +:+ " attempts")] else [])) w).
Proof.
  induction k as [|k IH]; intros a w Ha Hst.
  - rewrite get_solution_loop_exit by lia. simpl.
    replace a with (PAGE_RETRIES + 1) by lia. reflexivity.
  - apply stale_run_S in Hst as [H0 Hst].
    rewrite get_solution_loop_stale by (done || lia).
    rewrite IH.
    + rewrite progressed_progressed. simpl g_VERBOSE.
      rewrite (failed_attempts_S _ a k), <- app_assoc. reflexivity.
    + lia.
    + intros j Hj. specialize (Hst j Hj). exact Hst.
Qed.

Lemma get_solution_navigates browser mission w :
  get_solution browser mission w =
  get_solution_loop browser 0
    (progressed 0 (navigation (g_VERBOSE w) mission) w).
Proof.
  unfold get_solution, bind, gets, when, print, browser_get, modify, ret.
  f_equal. destruct w as [? ? ? ? r ? v ? ? l]; simpl.
  unfold progressed, navigation, emit; simpl. rewrite Nat.add_0_r.
  destruct v; simpl; rewrite <- ?app_assoc; reflexivity.
Qed.

(** Among the next [n] reads either one gives lines, the earlier ones
    being stale, or all are stale. *)
Lemma reads_dichotomy w n :
  (exists k ls, k < n /\ stale_run w k
                /\ ace_reads (remote w) (reads w + k) = ReadLines ls)
  \/ stale_run w n.
Proof.
  induction n as [|n [(k & ls & Hk & Hst & Hls)|Hst]].
  - right. intros j Hj. lia.
  - left. exists k, ls. split; [lia|done].
  - destruct (ace_reads (remote w) (reads w + n)) as [ls|] eqn:E.
    + left. exists n, ls. split; [lia|done].
    + right. intros j Hj. destruct (decide (j = n)) as [->|]; [done|].
      apply Hst. lia.
Qed.

Lemma failed_attempts_sleeps v a k :
  filter (fun e => is_sleep e = true) (failed_attempts v a k)
  = replicate k (Sleep RETRY_DELAY_SECS).
Proof.
  revert a. induction k as [|k IH]; intros a; [reflexivity|].
  simpl. destruct v; simpl; rewrite ?filter_cons; simpl;
    repeat case_decide; try done; rewrite ?filter_cons; simpl;
    repeat case_decide; try done; rewrite IH; reflexivity.
Qed.

Lemma failed_attempts_reads v a k :
  List.length (filter (fun e => is_read e = true) (failed_attempts v a k)) = k.
Proof.
  revert a. induction k as [|k IH]; intros a; [reflexivity|].
  simpl. destruct v; simpl; rewrite ?filter_cons; simpl;
    repeat case_decide; try done; rewrite ?filter_cons; simpl;
    repeat case_decide; try done; simpl; rewrite ?filter_cons; simpl;
    repeat case_decide; try done; simpl; rewrite IH; reflexivity.
Qed.

Lemma get_solution_success browser mission w k ls :
  k <= PAGE_RETRIES ->
  stale_run w k ->
  ace_reads (remote w) (reads w + k) = ReadLines ls ->
  get_solution browser mission w =
  (Ok (Some ls),
   progressed (k + 1)
     (navigation (g_VERBOSE w) mission ++ failed_attempts (g_VERBOSE w) 0 k
      ++ [FindLines "ace_line"]) w).
Proof.
  intros Hk Hst Hls. rewrite get_solution_navigates.
  rewrite (get_solution_loop_success _ k _ _ ls); [|lia| |].
  - rewrite progressed_progressed. reflexivity.
  - intros j Hj. simpl. rewrite Nat.add_0_r. apply Hst, Hj.
  - simpl. rewrite Nat.add_0_r. exact Hls.
Qed.

Lemma get_solution_exhausted browser mission w :
  stale_run w (PAGE_RETRIES + 1) ->
  get_solution browser mission w =
  (Ok None,
   progressed (PAGE_RETRIES + 1)
     (navigation (g_VERBOSE w) mission
      ++ failed_attempts (g_VERBOSE w) 0 (PAGE_RETRIES + 1)
      ++ exhausted_note (g_VERBOSE w)) w).
Proof.
  intros Hst. rewrite get_solution_navigates.
  rewrite (get_solution_loop_exhausted _ (PAGE_RETRIES + 1)); [|lia|].
  - rewrite progressed_progressed. reflexivity.
  - intros j Hj. simpl. rewrite Nat.add_0_r. apply Hst, Hj.
Qed.


Lemma bind_ok {A B} (m : M A) (k : A -> M B) w a w' :
  m w = (Ok a, w') -> bind m k w = k a w'.
Proof. intros H. unfold bind. by rewrite H. Qed.

Lemma bind_raise {A B} (m : M A) (k : A -> M B) w e w' :
  m w = (Raise e, w') -> bind m k w = (Raise e, w').
Proof. intros H. unfold bind. by rewrite H. Qed.

(** ** Strings and path names *)

Lemma str_app_cons x (a b : string) : String x a +:+ b = String x (a +:+ b).
Proof. reflexivity. Qed.

Lemma str_app_nil_l (b : string) : "" +:+ b = b.
Proof. reflexivity. Qed.

Lemma str_app_assoc (a b c : string) : (a +:+ b) +:+ c = a +:+ (b +:+ c).
Proof.
  induction a as [|x a IH]; [reflexivity|].
  by rewrite !str_app_cons, IH.
Qed.

Lemma str_app_nil_r (a : string) : a +:+ "" = a.
Proof.
  induction a as [|x a IH]; [reflexivity|]. by rewrite str_app_cons, IH.
Qed.

Lemma str_length_app (a b : string) :
  String.length (a +:+ b) = String.length a + String.length b.
Proof.
  induction a as [|x a IH]; [reflexivity|].
  rewrite str_app_cons. simpl. by rewrite IH.
Qed.

Lemma snoc_app cur c s : Str.snoc cur c +:+ s = cur +:+ String c s.
Proof. unfold Str.snoc, Str.str1. by rewrite str_app_assoc. Qed.

Lemma forallb_app p a b :
  Str.forallb p (a +:+ b) = Str.forallb p a && Str.forallb p b.
Proof.
  induction a as [|x a IH]; [reflexivity|].
  rewrite str_app_cons. simpl. by rewrite IH, andb_assoc.
Qed.

Lemma forallb_filter p s : Str.forallb p (Str.filter p s) = true.
Proof.
  induction s as [|c s IH]; simpl; [reflexivity|].
  destruct (p c) eqn:E; simpl; [by rewrite E|done].
Qed.

Lemma filter_head p s c s' : Str.filter p s = String c s' -> p c = true.
Proof.
  induction s as [|x s IH]; simpl; [discriminate|].
  destruct (p x) eqn:E; [|exact IH].
  intros [= <- _]. exact E.
Qed.

Lemma forallb_impl (p q : ascii -> bool) s :
  (forall c, p c = true -> q c = true) ->
  Str.forallb p s = true -> Str.forallb q s = true.
Proof.
  intros Hpq. induction s as [|c s IH]; simpl; [done|].
  intros [Hc Hs]%andb_prop. by rewrite (Hpq c Hc), IH.
Qed.

Lemma isalnum_not_slash c : Str.char_isalnum c = true -> not_slash c = true.
Proof.
  intros H. unfold not_slash. case_bool_decide as E; [|done].
  subst c. vm_compute in H. discriminate.
Qed.

Lemma split_slash_from_plain cur s :
  Str.forallb not_slash s = true ->
  Str.split_slash_from cur s = [cur +:+ s].
Proof.
  revert cur. induction s as [|c s IH]; intros cur; simpl.
  - by rewrite str_app_nil_r.
  - intros [Hc Hs]%andb_prop. unfold not_slash in Hc.
    case_bool_decide; [done|]. by rewrite IH, snoc_app.
Qed.

Lemma plain_name_spec s :
  plain_name s = true ->
  Str.is_empty s = false /\ is_dots s = false
  /\ Str.startswith "/" s = false /\ Str.split_slash s = [s].
Proof.
  unfold plain_name. intros [Hd Hs]%andb_prop.
  apply negb_true_iff in Hd. split; [|split; [done|split]].
  - destruct s; [|done]. vm_compute in Hd. discriminate.
  - destruct s as [|c s]; [done|]. simpl in Hs |- *.
    apply andb_prop in Hs as [Hc _]. unfold not_slash in Hc.
    apply negb_true_iff in Hc. apply bool_decide_eq_false in Hc.
    rewrite bool_decide_eq_false_2; [done|]. intros E. by apply Hc.
  - unfold Str.split_slash. by rewrite split_slash_from_plain.
Qed.

(** The folder name of a section is a plain name, or empty. *)
Lemma dir_name_plain section_name :
  let dir_name := Str.filter Str.char_isalnum section_name in
  dir_name = "" \/ plain_name dir_name = true.
Proof.
  simpl. destruct (Str.filter Str.char_isalnum section_name) as [|c s] eqn:E;
    [by left|right].
  pose proof (filter_head _ _ _ _ E) as Hc.
  unfold plain_name. apply andb_true_intro. split.
  - apply negb_true_iff. unfold is_dots, Str.eqb.
    repeat (case_bool_decide;
            [exfalso; simplify_eq; vm_compute in Hc; discriminate|]).
    reflexivity.
  - rewrite <- E.
    eapply forallb_impl; [apply isalnum_not_slash|apply forallb_filter].
Qed.

(** The file name of a mission whose [url_name] has no slash is plain. *)
Lemma filename_plain slug :
  Str.forallb not_slash slug = true -> plain_name (slug +:+ ".py") = true.
Proof.
  intros H. unfold plain_name. apply andb_true_intro. split.
  - apply negb_true_iff. unfold is_dots, Str.eqb.
    repeat (case_bool_decide as Eq;
            [apply (f_equal String.length) in Eq;
             rewrite str_length_app in Eq; simpl in Eq; lia|clear Eq]).
    reflexivity.
  - rewrite forallb_app, H. reflexivity.
Qed.

(** ** Directories *)

Lemma is_dots_false name :
  is_dots name = false ->
  Str.eqb name "" = false /\ Str.eqb name "." = false
  /\ Str.eqb name ".." = false.
Proof.
  unfold is_dots. intros H.
  apply orb_false_elim in H as [H H3]. apply orb_false_elim in H as [H1 H2].
  done.
Qed.

Lemma step_plain cur name :
  plain_name name = true -> step cur name = cur ++ [name].
Proof.
  intros (_ & Hd & _)%plain_name_spec.
  apply is_dots_false in Hd as (H1 & H2 & H3).
  unfold step. by rewrite H1, H2, H3.
Qed.

Lemma path_snoc_ne (cur : path) (name : string) : cur ≠ cur ++ [name].
Proof.
  intros H. apply (f_equal List.length) in H.
  rewrite length_app in H. simpl in H. lia.
Qed.

Lemma locate_plain w name :
  plain_name name = true ->
  locate w name =
  match fs w !! cwd w with
  | Some Dir => inr (cwd w ++ [name])
  | Some (File _) => inl NotADirectoryError
  | None => inl FileNotFoundError
  end.
Proof.
  intros (He & Hd & Hs & Hc)%plain_name_spec.
  unfold locate, start. rewrite He, Hc, Hs. simpl.
  destruct (fs w !! cwd w) as [[|c]|]; try reflexivity.
  by rewrite Hd.
Qed.

Lemma walk_nil m cur :
  walk m cur [] =
  match m !! cur with
  | Some Dir => inr cur
  | Some (File _) => inl NotADirectoryError
  | None => inl FileNotFoundError
  end.
Proof. reflexivity. Qed.

Lemma walk_cons m cur c rest :
  walk m cur (c :: rest) =
  match m !! cur with
  | Some Dir => walk m (step cur c) rest
  | Some (File _) => inl NotADirectoryError
  | None => inl FileNotFoundError
  end.
Proof. reflexivity. Qed.

Lemma mkdirs_nil cur w :
  mkdirs cur [] w =
  match fs w !! cur with
  | Some Dir => (Ok tt, w)
  | Some (File _) => (Raise (OSError NotADirectoryError), w)
  | None => (Raise (OSError FileNotFoundError), w)
  end.
Proof. reflexivity. Qed.

Lemma mkdirs_cons cur c rest w :
  mkdirs cur (c :: rest) w =
  match fs w !! cur with
  | Some Dir =>
      if is_dots c then mkdirs (step cur c) rest w
      else
        match fs w !! (cur ++ [c]) with
        | Some Dir => mkdirs (cur ++ [c]) rest w
        | Some (File _) =>
            (Raise (OSError (if List.forallb Str.is_empty rest
                             then FileExistsError
                             else NotADirectoryError)), w)
        | None => mkdirs (cur ++ [c]) rest (made (cur ++ [c]) w)
        end
  | Some (File _) => (Raise (OSError NotADirectoryError), w)
  | None => (Raise (OSError FileNotFoundError), w)
  end.
Proof. reflexivity. Qed.

Lemma os_makedirs_plain name w :
  plain_name name = true ->
  os_makedirs name w =
  match fs w !! cwd w with
  | Some Dir =>
      match fs w !! (cwd w ++ [name]) with
      | Some Dir => (Ok tt, w)
      | Some (File _) => (Raise (OSError FileExistsError), w)
      | None => (Ok tt, made (cwd w ++ [name]) w)
      end
  | Some (File _) => (Raise (OSError NotADirectoryError), w)
  | None => (Raise (OSError FileNotFoundError), w)
  end.
Proof.
  intros Hp. destruct (plain_name_spec _ Hp) as (He & Hd & Hs & Hc).
  unfold os_makedirs, start. rewrite He, Hc, Hs, mkdirs_cons, Hd.
  destruct (fs w !! cwd w) as [[|c]|] eqn:Hcwd; try reflexivity.
  destruct (fs w !! (cwd w ++ [name])) as [[|c]|] eqn:Hsub.
  - by rewrite mkdirs_nil, Hsub.
  - reflexivity.
  - rewrite mkdirs_nil. unfold made at 1. simpl fs.
    by rewrite lookup_insert_eq.
Qed.

Lemma os_chdir_plain name w :
  plain_name name = true ->
  fs w !! cwd w = Some Dir ->
  fs w !! (cwd w ++ [name]) = Some Dir ->
  os_chdir name w = (Ok tt, entered (cwd w ++ [name]) w).
Proof.
  intros Hp Hcwd Hsub. pose proof (step_plain (cwd w) name Hp) as Hstep.
  destruct (plain_name_spec _ Hp) as (He & Hd & Hs & Hc).
  unfold os_chdir, start.
  by rewrite He, Hc, Hs, walk_cons, Hcwd, Hstep, walk_nil, Hsub.
Qed.

Lemma create_and_switch_to_dir_empty w :
  create_and_switch_to_dir "" w = (Raise (OSError PlainOSError), w).
Proof. reflexivity. Qed.

(** [create_and_switch_to_dir] on a plain name, case by case. *)
Lemma create_and_switch_to_dir_plain name w :
  plain_name name = true ->
  create_and_switch_to_dir name w =
  match fs w !! cwd w with
  | Some Dir =>
      match fs w !! (cwd w ++ [name]) with
      | Some Dir => (Ok tt, entered (cwd w ++ [name]) w)
      | Some (File _) => (Raise (OSError FileExistsError), w)
      | None => (Ok tt, entered (cwd w ++ [name]) (made (cwd w ++ [name]) w))
      end
  | _ => (Raise (OSError PlainOSError), w)
  end.
Proof.
  intros Hp.
  unfold create_and_switch_to_dir, try_except, bind.
  rewrite os_makedirs_plain by done.
  destruct (fs w !! cwd w) as [[|c]|] eqn:Hcwd; try reflexivity.
  destruct (fs w !! (cwd w ++ [name])) as [[|c]|] eqn:Hsub.
  - by rewrite os_chdir_plain.
  - reflexivity.
  - rewrite os_chdir_plain; [reflexivity|done| |].
    + unfold made. simpl.
      by rewrite lookup_insert_ne by (symmetry; apply path_snoc_ne).
    + unfold made. simpl. by rewrite lookup_insert_eq.
Qed.

(** ** Files *)

Lemma world_eta w :
  World (remote w) (cwd w) (fs w) (free w) (reads w) (ticks w)
        (g_VERBOSE w) (g_browser w) (g_mission_list w) (log w) = w.
Proof. by destruct w. Qed.

Lemma emits_nil w : emits [] w = w.
Proof. unfold emits. rewrite app_nil_r. apply world_eta. Qed.

Lemma emits_emits l1 l2 w : emits l2 (emits l1 w) = emits (l1 ++ l2) w.
Proof. unfold emits; simpl. by rewrite app_assoc. Qed.

Lemma emit_emits e w : emit e w = emits [e] w.
Proof. reflexivity. Qed.

Lemma str_take_app n (a b : string) :
  String.length a <= n ->
  str_take n (a +:+ b) = a +:+ str_take (n - String.length a) b.
Proof.
  revert n. induction a as [|x a IH]; intros n Hn.
  - rewrite !str_app_nil_l. simpl. by rewrite Nat.sub_0_r.
  - rewrite !str_app_cons. simpl in Hn. destruct n as [|n]; [lia|].
    simpl. rewrite IH by lia. reflexivity.
Qed.

Lemma unlines_cons line rest :
  unlines (line :: rest) = (line +:+ Str.str1 Str.LF) +:+ unlines rest.
Proof. simpl. by rewrite str_app_assoc. Qed.

(** All the lines fit: the file grows by [unlines code]. *)
Lemma print_lines_fit p code : forall c w,
  fs w !! p = Some (File c) ->
  String.length (unlines code) <= free w ->
  for_each code (fun line => print_to p line) w =
  (Ok tt,
   emits (map (fun line => Append p (line +:+ Str.str1 Str.LF)) code)
     (filled p (c +:+ unlines code)
        (free w - String.length (unlines code)) w)).
Proof.
  induction code as [|line rest IH]; intros c w Hp Hfree.
  - simpl. unfold ret, filled. rewrite str_app_nil_r, Nat.sub_0_r.
    rewrite insert_id by done. unfold set_disk.
    by rewrite world_eta, emits_nil.
  - rewrite unlines_cons in Hfree |- *. rewrite str_length_app in Hfree.
    change (for_each (line :: rest) (fun line => print_to p line) w)
      with (bind (print_to p line)
              (fun _ => for_each rest (fun line => print_to p line)) w).
    unfold bind, print_to at 1. rewrite Hp.
    destruct (Nat.leb_spec (String.length (line +:+ Str.str1 Str.LF)) (free w))
      as [_|Hlt]; [|lia].
    rewrite (IH (c +:+ (line +:+ Str.str1 Str.LF))).
    + f_equal. unfold emits, filled, set_disk, emit; simpl.
      rewrite insert_insert_eq, !str_app_assoc, str_length_app.
      rewrite <- app_assoc. f_equal. rewrite !str_length_app in *. lia.
    + simpl. by rewrite lookup_insert_eq.
    + simpl. lia.
Qed.

(** The device fills up: the file keeps what fitted, and the call fails. *)
Lemma print_lines_full p code : forall c w,
  fs w !! p = Some (File c) ->
  free w < String.length (unlines code) ->
  exists l,
    for_each code (fun line => print_to p line) w =
    (Raise (OSError NoSpaceError),
     emits l (filled p (c +:+ str_take (free w) (unlines code)) 0 w))
    /\ Forall (is_append_to p) l.
Proof.
  induction code as [|line rest IH]; intros c w Hp Hfree.
  - simpl in Hfree. lia.
  - rewrite unlines_cons in Hfree |- *. rewrite str_length_app in Hfree.
    change (for_each (line :: rest) (fun line => print_to p line) w)
      with (bind (print_to p line)
              (fun _ => for_each rest (fun line => print_to p line)) w).
    unfold bind, print_to at 1. rewrite Hp.
    destruct (Nat.leb_spec (String.length (line +:+ Str.str1 Str.LF)) (free w))
      as [Hle|Hlt].
    + edestruct (IH (c +:+ (line +:+ Str.str1 Str.LF))) as (l & -> & Hl);
        [| |eexists; split; [|apply Forall_cons; split; [by eexists|exact Hl]]].
      * simpl. by rewrite lookup_insert_eq.
      * simpl. lia.
      * f_equal. unfold emits, filled, set_disk, emit; simpl.
        rewrite insert_insert_eq, str_take_app by done.
        by rewrite !str_app_assoc, <- app_assoc.
    + exists [Append p (str_take (free w) (line +:+ Str.str1 Str.LF))].
      split; [|apply Forall_cons; split; [by eexists|constructor]].
      f_equal. rewrite emit_emits. unfold emits, filled, set_disk; simpl.
      f_equal. f_equal. f_equal. f_equal.
      clear -Hlt. revert Hlt. generalize (free w) as n.
      generalize (line +:+ Str.str1 Str.LF) as a. intros a.
      induction a as [|x a IH]; intros n Hn; simpl in Hn; [lia|].
      rewrite str_app_cons. destruct n as [|n]; [reflexivity|].
      simpl. rewrite IH by lia. reflexivity.
Qed.

Lemma read_text_world name w : snd (read_text name w) = w.
Proof.
  unfold read_text. destruct (locate w name); [reflexivity|].
  destruct (fs w !! l) as [[|c]|]; reflexivity.
Qed.

Lemma read_text_raises name w e w' :
  read_text name w = (Raise e, w') -> exists o, e = OSError o.
Proof.
  unfold read_text. destruct (locate w name); [intros [= <- _]; by eexists|].
  destruct (fs w !! l) as [[|c]|]; intros [= <- _]; by eexists.
Qed.

(** The comparison [f.read().splitlines() == code] under its handler. *)
Lemma identical_check name code w :
  try_except
    (let* text := read_text name in
     ret (bool_decide (Str.splitlines text = code)))
    (except_IOError (fun _ => ret false)) w
  = (Ok (bool_decide (on_disk_lines name w = Some code)), w).
Proof.
  unfold try_except, bind, on_disk_lines, ret.
  pose proof (read_text_world name w) as Hw.
  destruct (read_text name w) as [[text|e] w'] eqn:E; simpl in Hw; subst w'.
  - f_equal. f_equal. apply bool_decide_ext. split; congruence.
  - apply read_text_raises in E as [o ->]. reflexivity.
Qed.

Lemma open_w_cases name w :
  (exists p, locate w name = inr p /\ fs w !! p ≠ Some Dir
             /\ open_w name w = (Ok p, opened p w))
  \/ (exists o, open_w name w = (Raise (OSError o), w)
                /\ os_remove name w = (Raise (OSError o), w)).
Proof.
  unfold open_w, os_remove, opened, size_at, filled.
  destruct (locate w name) as [e|p] eqn:El; [right; by eexists|].
  destruct (fs w !! p) as [[|c]|] eqn:Ep.
  - right. by eexists.
  - left. exists p. by rewrite Ep.
  - left. exists p. rewrite Ep, Nat.add_0_r. done.
Qed.

(** Changing the contents of a regular file, or creating one, does not
    move the directories a walk goes through. *)
Lemma walk_insert_file m p c cur comps d :
  m !! p ≠ Some Dir ->
  walk m cur comps = inr d ->
  walk (<[p := File c]> m) cur comps = inr d.
Proof.
  intros Hp. revert cur. induction comps as [|x comps IH]; intros cur.
  - rewrite !walk_nil.
    destruct (m !! cur) as [[|c']|] eqn:E; try discriminate.
    rewrite lookup_insert_ne by congruence. by rewrite E.
  - rewrite !walk_cons.
    destruct (m !! cur) as [[|c']|] eqn:E; try discriminate.
    rewrite lookup_insert_ne by congruence. rewrite E. apply IH.
Qed.

Lemma locate_insert_file w w' name p c q :
  cwd w' = cwd w ->
  fs w' = <[p := File c]> (fs w) ->
  fs w !! p ≠ Some Dir ->
  locate w name = inr q ->
  locate w' name = inr q.
Proof.
  intros Hc Hf Hp. unfold locate, start. rewrite Hc, Hf.
  destruct (Str.is_empty name); [done|].
  destruct (walk (fs w) _ (removelast _)) as [e|d] eqn:Ew; [done|].
  rewrite (walk_insert_file _ _ _ _ _ d) by done.
  destruct (is_dots _); [|done].
  destruct (walk (fs w) d _); [done|discriminate].
Qed.

Lemma str_take_length n (s : string) :
  n <= String.length s -> String.length (str_take n s) = n.
Proof.
  revert n. induction s as [|x s IH]; intros [|n] Hn; simpl in *;
    try reflexivity; try lia.
  rewrite IH by lia. reflexivity.
Qed.

(** ** [write_solution_to_file], path by path *)

Lemma write_solution_to_file_fetch browser m w r w1 :
  get_solution browser (url_name m) w = (Ok r, w1) ->
  write_solution_to_file browser m w =
  if falsy_lines r then (Raise (OSError PlainOSError), w1)
  else
    let code := code_of m w1 (default [] r) in
    if bool_decide (on_disk_lines (filename_of m) (stamped w1) = Some code)
    then (Ok tt, stamped w1)
    else
      try_except
        (let* f := open_w (filename_of m) in
         for_each code (fun line => print_to f line))
        (except_IOError (fun o =>
           os_remove (filename_of m) ;;
           raise (OSError o))) (stamped w1).
Proof.
  intros Hg. unfold write_solution_to_file, bind at 1. rewrite Hg.
  destruct (falsy_lines r); [reflexivity|].
  unfold bind at 1, datetime_now_c.
  unfold bind at 1. fold (filename_of m). fold (stamped w1).
  fold (code_of m w1 (default [] r)).
  rewrite identical_check.
  destruct (bool_decide _); reflexivity.
Qed.

(** The overwrite, case by case: the open fails; all lines fit; the device
    fills up, and the file is removed again. *)
Lemma overwrite_cases name code w :
  let save :=
    try_except
      (let* f := open_w name in
       for_each code (fun line => print_to f line))
      (except_IOError (fun o => os_remove name ;; raise (OSError o))) in
  (exists o, open_w name w = (Raise (OSError o), w)
             /\ save w = (Raise (OSError o), w))
  \/ (exists p,
        open_w name w = (Ok p, opened p w) /\ fs w !! p ≠ Some Dir
        /\ String.length (unlines code) <= free w + size_at p w
        /\ save w =
           (Ok tt,
            emits (map (fun line => Append p (line +:+ Str.str1 Str.LF)) code)
              (filled p (unlines code)
                 (free w + size_at p w - String.length (unlines code))
                 (opened p w))))
  \/ (exists p l,
        open_w name w = (Ok p, opened p w) /\ fs w !! p ≠ Some Dir
        /\ free w + size_at p w < String.length (unlines code)
        /\ Forall (is_append_to p) l
        /\ save w =
           (Raise (OSError NoSpaceError),
            removed p (free w + size_at p w)
              (emits l
                 (filled p (str_take (free w + size_at p w) (unlines code)) 0
                    (opened p w))))).
Proof.
  intros save. unfold save, try_except.
  destruct (open_w_cases name w) as [(p & Hl & Hp & Ho)|(o & Ho & Hr)].
  - assert (Hfile : fs (opened p w) !! p = Some (File "")).
    { unfold opened, filled. simpl. by rewrite lookup_insert_eq. }
    erewrite bind_ok by exact Ho.
    destruct (Nat.le_gt_cases (String.length (unlines code))
                (free w + size_at p w)) as [Hfit|Hfull].
    + right; left. exists p. repeat (split; [done|]).
      rewrite (print_lines_fit p code ""); [|done|done].
      rewrite str_app_nil_l. reflexivity.
    + right; right.
      destruct (print_lines_full p code "" (opened p w)) as (l & -> & Hl');
        [done|done|].
      exists p, l. repeat (split; [done|]).
      rewrite str_app_nil_l. simpl.
      unfold bind, os_remove.
      erewrite (locate_insert_file w _ name p _ p); [|reflexivity| |done|done].
      2:{ unfold emits, filled, opened; simpl. by rewrite insert_insert_eq. }
      simpl. rewrite lookup_insert_eq. unfold raise, removed. f_equal.
      unfold emit, emits, set_disk; simpl.
      rewrite str_take_length by lia. reflexivity.
  - left. exists o. split; [exact Ho|].
    erewrite bind_raise by exact Ho. simpl. unfold bind. rewrite Hr.
    reflexivity.
Qed.

(** ** What a call leaves untouched *)

Lemma runs_refl w : runs w [] w.
Proof. unfold runs. rewrite app_nil_r. done. Qed.

Lemma runs_trans w1 l1 w2 l2 w3 :
  runs w1 l1 w2 -> runs w2 l2 w3 -> runs w1 (l1 ++ l2) w3.
Proof.
  intros (H1 & H2 & H3 & H4 & H5 & H6 & H7) (G1 & G2 & G3 & G4 & G5 & G6 & G7).
  unfold runs. rewrite G1, H1, app_assoc.
  repeat split; try congruence. intros d Hd. apply G7, H7, Hd.
Qed.

Lemma runs_progressed n l w : runs w l (progressed n l w).
Proof. unfold runs, progressed; simpl. done. Qed.

Lemma runs_stamped w : runs w [] (stamped w).
Proof. unfold runs, stamped; simpl. by rewrite app_nil_r. Qed.

Lemma loaded_app l1 l2 : loaded (l1 ++ l2) = loaded l1 ++ loaded l2.
Proof. apply omap_app. Qed.

Lemma no_disk_event_app l1 l2 :
  no_disk_event l1 -> no_disk_event l2 -> no_disk_event (l1 ++ l2).
Proof. unfold no_disk_event. intros. by apply Forall_app. Qed.

Lemma failed_attempts_quiet v a k :
  no_disk_event (failed_attempts v a k) /\ loaded (failed_attempts v a k) = [].
Proof.
  revert a. induction k as [|k IH]; intros a; [by split; [constructor|]|].
  destruct (IH (a + 1)) as [H1 H2]. split.
  - simpl. constructor; [done|]. apply Forall_app. split.
    + destruct v; repeat constructor.
    + by constructor.
  - simpl. destruct v; simpl; exact H2.
Qed.

Lemma navigation_quiet v mission :
  no_disk_event (navigation v mission)
  /\ loaded (navigation v mission) = [SOLUTION_PAGE mission].
Proof.
  unfold navigation. destruct v; split; try reflexivity; repeat constructor.
Qed.

(** [get_solution] always returns: it only reads the editor and logs, and
    it loads the solution page once. *)
Lemma get_solution_runs browser mission w :
  exists r n l,
    get_solution browser mission w = (Ok r, progressed n l w)
    /\ no_disk_event l /\ loaded l = [SOLUTION_PAGE mission].
Proof.
  destruct (navigation_quiet (g_VERBOSE w) mission) as [N1 N2].
  destruct (reads_dichotomy w (PAGE_RETRIES + 1))
    as [(k & ls & Hk & Hst & Hls)|Hst].
  - destruct (failed_attempts_quiet (g_VERBOSE w) 0 k) as [F1 F2].
    eexists _, _, _. split; [|split].
    + apply (get_solution_success _ _ _ k ls); try done; lia.
    + apply no_disk_event_app; [done|].
      apply no_disk_event_app; [done|]. by repeat constructor.
    + rewrite !loaded_app, N2, F2. reflexivity.
  - destruct (failed_attempts_quiet (g_VERBOSE w) 0 (PAGE_RETRIES + 1))
      as [F1 F2].
    eexists _, _, _. split; [|split].
    + apply get_solution_exhausted, Hst.
    + apply no_disk_event_app; [done|].
      apply no_disk_event_app; [done|].
      unfold exhausted_note. destruct (g_VERBOSE w); repeat constructor.
    + rewrite !loaded_app, N2, F2. unfold exhausted_note.
      destruct (g_VERBOSE w); reflexivity.
Qed.

Lemma loaded_appends p l : Forall (is_append_to p) l -> loaded l = [].
Proof.
  induction 1 as [|e l [s ->] _ IH]; [reflexivity|]. exact IH.
Qed.

Lemma appends_map p (f : string -> string) code :
  Forall (is_append_to p) (map (fun line => Append p (f line)) code).
Proof. induction code; constructor; [by eexists|done]. Qed.

(** [write_solution_to_file] returns normally or with an [OSError]; it
    loads the solution page of its mission once and stays in the working
    directory, leaving the directories in place. *)
Lemma write_solution_to_file_runs browser m w :
  exists r w' l,
    write_solution_to_file browser m w = (r, w')
    /\ runs w l w'
    /\ (r = Ok tt \/ exists o, r = Raise (OSError o))
    /\ loaded l = [SOLUTION_PAGE (url_name m)].
Proof.
  destruct (get_solution_runs browser (url_name m) w)
    as (r0 & n & l0 & Hg & _ & Hl0).
  rewrite (write_solution_to_file_fetch _ _ _ _ _ Hg).
  pose proof (runs_progressed n l0 w) as R0.
  destruct (falsy_lines r0).
  { eexists _, _, l0. split; [reflexivity|]. split; [done|].
    split; [right; by eexists|done]. }
  pose proof (runs_trans _ _ _ _ _ R0 (runs_stamped _)) as R1.
  rewrite app_nil_r in R1.
  cbv zeta. destruct (bool_decide _).
  { eexists _, _, l0. split; [reflexivity|]. split; [done|].
    split; [by left|done]. }
  set (w2 := stamped (progressed n l0 w)) in *.
  destruct (overwrite_cases (filename_of m)
              (code_of m (progressed n l0 w) (default [] r0)) w2)
    as [(o & _ & ->)|[(p & _ & Hp & _ & ->)|(p & l & _ & Hp & _ & Hl & ->)]].
  - eexists _, _, l0. split; [reflexivity|]. split; [done|].
    split; [right; by eexists|done].
  - eexists _, _, _. split; [reflexivity|]. split; [|split; [by left|]].
    + eapply runs_trans; [exact R1|].
      unfold runs, emits, filled, opened, emit, set_disk; simpl.
      rewrite <- app_assoc. split; [reflexivity|]. repeat (split; [done|]).
      intros d Hd. assert (p ≠ d) by (intros ->; apply Hp; exact Hd).
      rewrite !lookup_insert_ne by done. done.
    + rewrite !loaded_app, Hl0. simpl.
      rewrite (loaded_appends p) by apply appends_map. reflexivity.
  - eexists _, _, _. split; [reflexivity|].
    split; [|split; [right; by eexists|]].
    + eapply runs_trans; [exact R1|].
      unfold runs, removed, emits, filled, opened, emit, set_disk; simpl.
      rewrite <- !app_assoc. split; [reflexivity|]. repeat (split; [done|]).
      intros d Hd. assert (p ≠ d) by (intros ->; apply Hp; exact Hd).
      rewrite lookup_delete_ne by done.
      rewrite !lookup_insert_ne by done. done.
    + rewrite !loaded_app, Hl0. simpl.
      rewrite (loaded_appends p l Hl). reflexivity.
Qed.

(** ** The loops of [download_section] and of the main program *)

(** One round of the loop of [download_section]. *)
Lemma download_section_loop_cons section_name m rest errors w browser :
  g_browser w = Some browser ->
  download_section_loop section_name (m :: rest) errors w =
  match write_solution_to_file browser m w with
  | (Ok _, w') => download_section_loop section_name rest errors w'
  | (Raise (OSError _), w') =>
      download_section_loop section_name rest
        (errors ++ [mission_error section_name m]) w'
  | (Raise e, w') => (Raise e, w')
  end.
Proof.
  intros Hb. simpl. unfold bind at 1, try_except, bind at 1, global.
  rewrite Hb. unfold bind at 1.
  destruct (write_solution_to_file browser m w) as [[[]|e] w'];
    [reflexivity|].
  destruct e; reflexivity.
Qed.

Lemma download_section_loop_runs section_name ms : forall errors w browser,
  g_browser w = Some browser ->
  exists extra w' l,
    download_section_loop section_name ms errors w = (Ok (errors ++ extra), w')
    /\ runs w l w'
    /\ loaded l = map (fun m => SOLUTION_PAGE (url_name m)) ms
    /\ extra `sublist_of` map (mission_error section_name) ms.
Proof.
  induction ms as [|m rest IH]; intros errors w browser Hb.
  - exists [], w, []. rewrite app_nil_r. split; [reflexivity|].
    split; [apply runs_refl|]. split; [reflexivity|constructor].
  - rewrite (download_section_loop_cons _ _ _ _ _ _ Hb).
    destruct (write_solution_to_file_runs browser m w)
      as (r & w1 & l1 & -> & R1 & Hr & Hl1).
    assert (Hb1 : g_browser w1 = Some browser).
    { destruct R1 as (_ & _ & _ & _ & -> & _). exact Hb. }
    destruct Hr as [->|[o ->]].
    + destruct (IH errors w1 browser Hb1) as (extra & w2 & l2 & -> & R2 & Hl2 & Hs).
      exists extra, w2, (l1 ++ l2). split; [reflexivity|].
      split; [by eapply runs_trans|]. split.
      * rewrite loaded_app, Hl1, Hl2. reflexivity.
      * simpl. by apply sublist_cons.
    + destruct (IH (errors ++ [mission_error section_name m]) w1 browser Hb1)
        as (extra & w2 & l2 & -> & R2 & Hl2 & Hs).
      exists (mission_error section_name m :: extra), w2, (l1 ++ l2).
      split; [by rewrite <- app_assoc|].
      split; [by eapply runs_trans|]. split.
      * rewrite loaded_app, Hl1, Hl2. reflexivity.
      * simpl. by apply sublist_skip.
Qed.

(** The folder of a section is made and entered, or the world stays as it
    is. *)
Lemma create_section_dir section_name w :
  (exists o, create_and_switch_to_dir (dir_name_of section_name) w
             = (Raise (OSError o), w))
  \/ (exists w1 l,
        create_and_switch_to_dir (dir_name_of section_name) w = (Ok tt, w1)
        /\ plain_name (dir_name_of section_name) = true
        /\ fs w !! cwd w = Some Dir
        /\ cwd w1 = cwd w ++ [dir_name_of section_name]
        /\ fs w1 !! cwd w1 = Some Dir
        /\ (forall d, fs w !! d = Some Dir -> fs w1 !! d = Some Dir)
        /\ log w1 = log w ++ l /\ loaded l = []
        /\ remote w1 = remote w /\ g_VERBOSE w1 = g_VERBOSE w
        /\ g_browser w1 = g_browser w
        /\ g_mission_list w1 = g_mission_list w
        /\ reads w1 = reads w /\ ticks w1 = ticks w).
Proof.
  destruct (dir_name_plain section_name) as [E|Hp]; fold (dir_name_of section_name) in *.
  { left. rewrite E. by eexists. }
  rewrite (create_and_switch_to_dir_plain _ _ Hp).
  destruct (fs w !! cwd w) as [[|c]|] eqn:Hcwd; try (left; by eexists).
  destruct (fs w !! (cwd w ++ [dir_name_of section_name])) as [[|c]|] eqn:Hsub.
  - right. eexists _, [_]. split; [reflexivity|].
    unfold entered, emit, set_cwd; simpl. by repeat split.
  - left. by eexists.
  - right. eexists _, [_; _]. split; [reflexivity|].
    unfold entered, made, emit, set_cwd, set_disk; simpl.
    rewrite lookup_insert_eq, <- app_assoc.
    repeat split; try done.
    intros d Hd. rewrite lookup_insert_ne by congruence. done.
Qed.

(** [download_section] with its globals bound: the folder cannot be made
    and one line says so, or the loop runs over the global list inside the
    folder and the script returns to where it was. *)
Lemma download_section_cases section_name missions w gl browser :
  g_mission_list w = Some gl ->
  g_browser w = Some browser ->
  let w0 := emit (section_banner section_name (List.length gl)) w in
  (exists o,
     create_and_switch_to_dir (dir_name_of section_name) w0
     = (Raise (OSError o), w0)
     /\ download_section section_name missions w
        = (Ok [folder_error section_name], w0))
  \/ (exists w1 errors w2 l,
        create_and_switch_to_dir (dir_name_of section_name) w0 = (Ok tt, w1)
        /\ cwd w1 = cwd w ++ [dir_name_of section_name]
        /\ (exists l1, log w1 = log w0 ++ l1 /\ loaded l1 = [])
        /\ download_section_loop section_name gl [] w1 = (Ok errors, w2)
        /\ runs w1 l w2 /\ g_browser w2 = g_browser w
        /\ loaded l = map (fun m => SOLUTION_PAGE (url_name m)) gl
        /\ errors `sublist_of` map (mission_error section_name) gl
        /\ download_section section_name missions w
           = (Ok errors, entered (cwd w) w2)).
Proof.
  intros Hgl Hb w0.
  assert (Hstart : download_section section_name missions w =
    (let* entered :=
       try_except
         (create_and_switch_to_dir (dir_name_of section_name) ;; ret true)
         (except_IOError (fun _ => ret false)) in
     if negb entered then ret [folder_error section_name]
     else
       let* mission_list := global "mission_list" g_mission_list in
       let* errors := download_section_loop section_name mission_list [] in
       os_chdir_abs (cwd w) ;;
       ret errors) w0).
  { unfold download_section, bind at 1, global. rewrite Hgl.
    unfold bind at 1, print, modify. unfold bind at 1, os_getcwd, gets.
    reflexivity. }
  rewrite Hstart. clear Hstart.
  destruct (create_section_dir section_name w0)
    as [(o & Hc)|(w1 & l1 & Hc & Hp & Hcwd & Hcwd1 & Hin & Hdirs & Hlog & Hl1
                  & Hrem & Hv & Hb1 & Hgl1 & _)].
  - left. exists o. split; [exact Hc|].
    unfold bind at 1, try_except, bind at 1. rewrite Hc. reflexivity.
  - right.
    assert (Hb1' : g_browser w1 = Some browser) by (by rewrite Hb1).
    destruct (download_section_loop_runs section_name gl [] w1 browser Hb1')
      as (errors & w2 & l & Hloop & R & Hl & Hs).
    exists w1, errors, w2, l. split; [exact Hc|]. split; [exact Hcwd1|].
    split; [by exists l1|]. split; [exact Hloop|]. split; [exact R|].
    split; [destruct R as (_ & _ & _ & _ & -> & _); exact Hb1|].
    split; [exact Hl|].
    split; [exact Hs|].
    erewrite bind_ok;
      [|unfold try_except; erewrite bind_ok by exact Hc; reflexivity].
    change (negb true) with false. cbv iota.
    erewrite bind_ok; [|unfold global; rewrite Hgl1; simpl; rewrite Hgl;
                        reflexivity].
    erewrite bind_ok by exact Hloop.
    destruct R as (_ & _ & _ & _ & _ & _ & Hd2).
    erewrite bind_ok; [reflexivity|].
    pose proof (Hd2 _ (Hdirs _ Hcwd)) as Hback.
    unfold w0 in Hback; simpl in Hback.
    unfold os_chdir_abs. rewrite Hback. reflexivity.
Qed.

Lemma unknown_section_block mission_list errors :
  unknown_section mission_list errors = errors ++ unknown_block mission_list.
Proof.
  unfold unknown_section, unknown_block.
  change ("Unknown section containing:"
          :: map (fun m => "-- " +:+ title m) mission_list)
    with (["Unknown section containing:"]
          ++ map (fun m => "-- " +:+ title m) mission_list).
  rewrite app_assoc. generalize (errors ++ ["Unknown section containing:"]).
  induction mission_list as [|m rest IH]; intros acc; simpl.
  - by rewrite app_nil_r.
  - rewrite IH, <- app_assoc. reflexivity.
Qed.

(** One round of the main loop. *)
Lemma main_loop_cons section_name mission_list rest errors w :
  main_loop ((section_name, mission_list) :: rest) errors w =
  let w' := set_mission_list (Some mission_list) w in
  if Str.is_empty section_name then
    main_loop rest (errors ++ unknown_block mission_list) w'
  else
    match download_section section_name mission_list w' with
    | (Ok section_errors, w'') => main_loop rest (errors ++ section_errors) w''
    | (Raise e, w'') => (Raise e, w'')
    end.
Proof.
  simpl. unfold bind at 1, modify. cbv zeta.
  destruct (Str.is_empty section_name).
  - unfold bind at 1, ret. by rewrite unknown_section_block.
  - unfold bind at 1, bind at 1.
    destruct (download_section _ _ _) as [[se|e] w'']; reflexivity.
Qed.

Lemma main_loop_app pre post : forall errors w,
  main_loop (pre ++ post) errors w =
  match main_loop pre errors w with
  | (Ok errors1, w1) => main_loop post errors1 w1
  | (Raise e, w1) => (Raise e, w1)
  end.
Proof.
  induction pre as [|[s ml] pre IH]; intros errors w; [reflexivity|].
  rewrite <- app_comm_cons, !main_loop_cons. cbv zeta.
  destruct (Str.is_empty s); [apply IH|].
  destruct (download_section _ _ _) as [[se|e] w'']; [apply IH|reflexivity].
Qed.

(** The main loop only adds to the list of errors. *)
Lemma main_loop_extends items : forall errors w out w',
  main_loop items errors w = (Ok out, w') ->
  exists later, out = errors ++ later.
Proof.
  induction items as [|[s ml] items IH]; intros errors w out w'.
  - intros [= <- _]. exists []. by rewrite app_nil_r.
  - rewrite main_loop_cons. cbv zeta.
    destruct (Str.is_empty s).
    + intros (later & ->)%IH. eexists. by rewrite <- app_assoc.
    + destruct (download_section _ _ _) as [[se|e] w'']; [|done].
      intros (later & ->)%IH. eexists. by rewrite <- app_assoc.
Qed.


Lemma open_w_plain name w p w' :
  plain_name name = true ->
  open_w name w = (Ok p, w') ->
  p = cwd w ++ [name] /\ fs w !! cwd w = Some Dir.
Proof.
  intros Hp. unfold open_w. rewrite (locate_plain _ _ Hp).
  destruct (fs w !! cwd w) as [[|c]|]; try discriminate.
  destruct (fs w !! (cwd w ++ [name])) as [[|c]|]; try discriminate;
    by intros [= <- _].
Qed.

Lemma on_disk_lines_plain name w code :
  plain_name name = true ->
  on_disk_lines name w = Some code ->
  exists c, fs w !! (cwd w ++ [name]) = Some (File c)
            /\ Str.splitlines (Str.universal_newlines c) = code.
Proof.
  intros Hp. unfold on_disk_lines, read_text. rewrite (locate_plain _ _ Hp).
  destruct (fs w !! cwd w) as [[|c]|]; try discriminate.
  destruct (fs w !! (cwd w ++ [name])) as [[|c]|]; try discriminate.
  intros [= <-]. by exists c.
Qed.

(** ** Lines written and read back *)

Lemma linebreak_cr c : Str.is_linebreak c = false -> Str.is_cr c = false.
Proof.
  unfold Str.is_linebreak, Str.is_cr. intros H.
  repeat (apply orb_false_elim in H as [H ?]). done.
Qed.


Lemma splitlines_from_app_lf line rest cur :
  one_line line = true ->
  Str.splitlines_from cur (line +:+ String Str.LF rest)
  = (cur +:+ line) :: Str.splitlines_from "" rest.
Proof.
  revert cur. induction line as [|c line IH]; intros cur Hl.
  - rewrite str_app_nil_l, str_app_nil_r. reflexivity.
  - unfold one_line in Hl. simpl in Hl. apply andb_prop in Hl as [Hc Hl].
    apply negb_true_iff in Hc. rewrite str_app_cons.
    cbn [Str.splitlines_from]. rewrite (linebreak_cr _ Hc), Hc.
    rewrite IH by done. by rewrite snoc_app.
Qed.





(** ** The steps of the main program *)





Lemma get_task_pure task :
  exists r, (forall w, get_task task w = (r, w)) /\ listing_outcome r.
Proof.
  unfold get_task, listing_outcome.
  destruct (task_img task); [|by eexists; eauto].
  destruct (task_href task); [|by eexists; eauto].
  destruct (re_match_group _ _); eexists; split; try reflexivity; eauto.
Qed.

Lemma get_tasks_pure tasks : forall task_list,
  exists r, (forall w, get_tasks tasks task_list w = (r, w))
            /\ listing_outcome r.
Proof.
  induction tasks as [|task rest IH]; intros task_list.
  - eexists. split; [reflexivity|]. left. by eexists.
  - destruct (get_task_pure task) as (r & Hr & [[m ->]|[->| ->]]).
    + destruct (IH (task_list ++ [m])) as (r' & Hr' & Hc).
      exists r'. split; [|exact Hc]. intros w. simpl.
      by erewrite bind_ok by apply Hr.
    + eexists. split; [|right; left; reflexivity]. intros w. simpl.
      by erewrite bind_raise by apply Hr.
    + eexists. split; [|right; right; reflexivity]. intros w. simpl.
      by erewrite bind_raise by apply Hr.
Qed.

Lemma get_sections_pure sections : forall section_list,
  exists r, (forall w, get_sections sections section_list w = (r, w))
            /\ listing_outcome r.
Proof.
  induction sections as [|section rest IH]; intros section_list.
  - eexists. split; [reflexivity|]. left. by eexists.
  - simpl. destruct (section_header section) as [title|].
    + destruct (get_tasks_pure (section_tasks section) [])
        as (r & Hr & [[ms ->]|[->| ->]]).
      * destruct (IH (dict_set section_list title ms)) as (r' & Hr' & Hc).
        exists r'. split; [|exact Hc]. intros w.
        by erewrite bind_ok by apply Hr.
      * eexists. split; [|right; left; reflexivity]. intros w.
        by erewrite bind_raise by apply Hr.
      * eexists. split; [|right; right; reflexivity]. intros w.
        by erewrite bind_raise by apply Hr.
    + eexists. split; [reflexivity|]. right; left; reflexivity.
Qed.

(** [get_missions]: the mapping, or the error message and the empty
    mapping, or the [AttributeError] of an href that does not match. *)
Lemma get_missions_cases browser username w :
  let w0 := emit (BrowserGet (MISSIONS_PAGE username)) w in
  let r := fst (get_sections (listing (remote w)) [] w) in
  get_missions browser username w =
  match r with
  | Ok missions => (Ok missions, w0)
  | Raise NoSuchElementException => (Ok [], emit parse_error w0)
  | Raise e => (Raise e, w0)
  end
  /\ listing_outcome r.
Proof.
  intros w0 r. unfold r.
  destruct (get_sections_pure (listing (remote w)) []) as (r' & Hr & Hc).
  rewrite (Hr w). simpl. split; [|exact Hc].
  unfold get_missions, bind, browser_get, modify, gets, try_except; simpl.
  rewrite (Hr _).
  destruct Hc as [[x ->]|[->| ->]]; reflexivity.
Qed.





(** * The claims of the specification *)

(** ** C1: the retry policy of [get_solution] *)

(** C1. A fetch reads the editor at most [PAGE_RETRIES + 1 = 4] times and
    never raises. When the first [k <= 3] reads are stale and the next one
    gives lines, these lines are returned at once, after exactly [k + 1]
    reads and [k] delays. When four reads in a row are stale the result is
    [None], returned normally. Every failed attempt is followed by one
    delay of [RETRY_DELAY_SECS = 5] seconds. *)
Theorem get_solution_retry_policy browser mission w :
  let v := g_VERBOSE w in
  (PAGE_RETRIES + 1 = 4 /\ RETRY_DELAY_SECS = 5)
  /\ (exists r w',
        get_solution browser mission w = (Ok r, w')
        /\ reads w <= reads w' <= reads w + (PAGE_RETRIES + 1))
  /\ (forall k ls,
        k <= PAGE_RETRIES ->
        stale_run w k ->
        ace_reads (remote w) (reads w + k) = ReadLines ls ->
        get_solution browser mission w =
        (Ok (Some ls),
         progressed (k + 1)
           (navigation v mission ++ failed_attempts v 0 k
            ++ [FindLines "ace_line"]) w))
  /\ (stale_run w (PAGE_RETRIES + 1) ->
      get_solution browser mission w =
      (Ok None,
       progressed (PAGE_RETRIES + 1)
         (navigation v mission ++ failed_attempts v 0 (PAGE_RETRIES + 1)
          ++ exhausted_note v) w))
  /\ (forall a k,
        filter (fun e => is_sleep e = true) (failed_attempts v a k)
        = replicate k (Sleep 5)
        /\ List.length (filter (fun e => is_read e = true)
                     (failed_attempts v a k)) = k).
Proof.
  intros v.
  split; [split; reflexivity|].
  split; [|split; [|split]].
  - destruct (reads_dichotomy w (PAGE_RETRIES + 1))
      as [(k & ls & Hk & Hst & Hls)|Hst].
    + eexists _, _.
      split; [apply (get_solution_success _ _ _ k ls); [lia|done|done]|].
      simpl. unfold PAGE_RETRIES in *. lia.
    + eexists _, _. split; [apply get_solution_exhausted, Hst|].
      simpl. unfold PAGE_RETRIES. lia.
  - intros k ls. apply get_solution_success.
  - apply get_solution_exhausted.
  - intros a k. split.
    + apply failed_attempts_sleeps.
    + apply failed_attempts_reads.
Qed.

Lemma get_solution_retry_policy_witness :
  get_solution Firefox "add" sample_world =
  (Ok (Some ["a=1"; "b=2"]),
   progressed (2 + 1)
     (navigation false "add" ++ failed_attempts false 0 2
      ++ [FindLines "ace_line"]) sample_world).
Proof.
  apply (proj1 (proj2 (proj2
           (get_solution_retry_policy Firefox "add" sample_world)))
           2 ["a=1"; "b=2"]).
  - unfold PAGE_RETRIES. lia.
  - intros j Hj. destruct j as [|[|j]]; [reflexivity|reflexivity|lia].
  - reflexivity.
Defined.

(** ** C2: an identical file is not written again *)




(** ** C3: where a solution goes and what the file holds *)



(** ** C4: how the run ends *)



(** ** C5: a section whose folder cannot be made *)

(** C5. In the main loop, when the folder of a named section cannot be
    made, the section contributes the one line [folder_error]; the world
    goes on to the next sections with the same disk, the same working
    directory and no read of the editor: only the banner was printed and
    the global list rebound. *)
Theorem folder_failure_isolated section_name mission_list rest errors w
    browser o w_f :
  Str.is_empty section_name = false ->
  g_browser w = Some browser ->
  let w0 := emit (section_banner section_name (List.length mission_list))
              (set_mission_list (Some mission_list) w) in
  create_and_switch_to_dir (dir_name_of section_name) w0
  = (Raise (OSError o), w_f) ->
  download_section section_name mission_list
    (set_mission_list (Some mission_list) w)
  = (Ok [folder_error section_name], w0)
  /\ main_loop ((section_name, mission_list) :: rest) errors w
     = main_loop rest (errors ++ [folder_error section_name]) w0
  /\ fs w0 = fs w /\ free w0 = free w /\ cwd w0 = cwd w
  /\ reads w0 = reads w
  /\ log w0 = log w ++ [section_banner section_name (List.length mission_list)].
Proof.
  intros Hname Hb w0 Hfail.
  assert (Hd : download_section section_name mission_list
                 (set_mission_list (Some mission_list) w)
               = (Ok [folder_error section_name], w0)).
  { destruct (download_section_cases section_name mission_list
                (set_mission_list (Some mission_list) w) mission_list browser
                eq_refl Hb)
      as [(o' & _ & ->)|(w1 & ? & ? & ? & Hok & _)]; [reflexivity|].
    fold w0 in Hok. rewrite Hok in Hfail. discriminate. }
  split; [exact Hd|]. split; [|by repeat split].
  rewrite main_loop_cons. cbv zeta. by rewrite Hname, Hd.
Qed.

Lemma folder_failure_isolated_witness :
  let w0 := emit (section_banner "Basics" 1)
              (set_mission_list (Some [add_mission]) blocked_world) in
  download_section "Basics" [add_mission]
    (set_mission_list (Some [add_mission]) blocked_world)
  = (Ok [folder_error "Basics"], w0)
  /\ main_loop [("Basics", [add_mission]); ("", [mystery_mission])] []
       blocked_world
     = main_loop [("", [mystery_mission])] ([] ++ [folder_error "Basics"]) w0
  /\ fs w0 = fs blocked_world /\ free w0 = free blocked_world
  /\ cwd w0 = cwd blocked_world /\ reads w0 = reads blocked_world
  /\ log w0 = log blocked_world ++ [section_banner "Basics" 1].
Proof.
  apply (folder_failure_isolated "Basics" [add_mission]
           [("", [mystery_mission])] [] blocked_world Firefox FileExistsError
           (emit (section_banner "Basics" 1)
              (set_mission_list (Some [add_mission]) blocked_world))).
  - reflexivity.
  - reflexivity.
  - vm_compute. reflexivity.
Defined.

(** ** C6: the section without a name *)

(** C6. When the main loop reaches the section whose name is empty, after
    the sections [pre] before it left the errors [errors1] and the world
    [w1], it adds one heading and one line per mission of that section, in
    order, and goes on with the sections after it in the world [w1], where
    only the global list is rebound: nothing is fetched and nothing is
    written for that section. These lines are part of the final list. *)
Theorem unknown_section_reported pre mission_list post errors w errors1 w1 :
  main_loop pre errors w = (Ok errors1, w1) ->
  main_loop (pre ++ ("", mission_list) :: post) errors w
  = main_loop post (errors1 ++ unknown_block mission_list)
      (set_mission_list (Some mission_list) w1)
  /\ List.length (unknown_block mission_list) = S (List.length mission_list)
  /\ (forall out w',
        main_loop (pre ++ ("", mission_list) :: post) errors w = (Ok out, w') ->
        exists later, out = errors1 ++ unknown_block mission_list ++ later).
Proof.
  intros Hpre.
  assert (Heq : main_loop (pre ++ ("", mission_list) :: post) errors w
    = main_loop post (errors1 ++ unknown_block mission_list)
        (set_mission_list (Some mission_list) w1)).
  { rewrite main_loop_app, Hpre, main_loop_cons. reflexivity. }
  split; [exact Heq|]. split.
  - unfold unknown_block. simpl. by rewrite length_map.
  - intros out w'. rewrite Heq. intros (later & ->)%main_loop_extends.
    exists later. by rewrite <- app_assoc.
Qed.

Lemma unknown_section_reported_witness :
  let w1 := snd (main_loop [("Basics", [add_mission])] [] sample_world) in
  main_loop ([("Basics", [add_mission])] ++ [("", [mystery_mission])]) []
    sample_world
  = main_loop [] ([] ++ unknown_block [mystery_mission])
      (set_mission_list (Some [mystery_mission]) w1)
  /\ List.length (unknown_block [mystery_mission]) = 2
  /\ (forall out w',
        main_loop ([("Basics", [add_mission])] ++ [("", [mystery_mission])])
          [] sample_world = (Ok out, w') ->
        exists later, out = [] ++ unknown_block [mystery_mission] ++ later).
Proof.
  intros w1.
  apply (unknown_section_reported [("Basics", [add_mission])]
           [mystery_mission] [] [] sample_world [] w1).
  vm_compute. reflexivity.
Defined.

(** ** C7: nothing fetched, nothing written *)

(** C7. When the fetch gave [None] or no line at all,
    [write_solution_to_file] raises [IOError]; the disk is as it was before
    the call and no disk action was logged. *)
Theorem write_without_lines_fails browser m w r w1 :
  get_solution browser (url_name m) w = (Ok r, w1) ->
  r = None \/ r = Some [] ->
  write_solution_to_file browser m w = (Raise (OSError PlainOSError), w1)
  /\ fs w1 = fs w /\ free w1 = free w /\ cwd w1 = cwd w
  /\ exists l, log w1 = log w ++ l /\ no_disk_event l.
Proof.
  intros Hg Hr. split.
  - rewrite (write_solution_to_file_fetch _ _ _ _ _ Hg).
    by destruct Hr as [->| ->].
  - destruct (get_solution_runs browser (url_name m) w)
      as (r' & n & l & Hg' & Hl & _).
    rewrite Hg in Hg'. injection Hg' as _ ->.
    repeat split. by exists l.
Qed.

Lemma write_without_lines_fails_witness :
  write_solution_to_file Firefox add_mission (fresh_world stale_site 100)
  = (Raise (OSError PlainOSError),
     progressed 4 (navigation false "add" ++ failed_attempts false 0 4)
       (fresh_world stale_site 100)).
Proof.
  apply (write_without_lines_fails Firefox add_mission
           (fresh_world stale_site 100) None).
  - vm_compute. reflexivity.
  - left. reflexivity.
Defined.

(** ** C8: a write that fails mid-stream *)



(** ** C9: the working directory after a section *)



(** ** C10: the global list, not the parameter *)



(** * Further properties of the script *)

(** ** The two patterns *)

Lemma re_prefix_itself pat s : re_prefix pat (pat +:+ s) = Some s.
Proof.
  induction pat as [|p pat IH]; [reflexivity|].
  rewrite str_app_cons. cbn [re_prefix].
  case_bool_decide as Hp.
  - subst p. by change (negb (Str.is_lf ".")) with true.
  - by rewrite bool_decide_eq_true_2.
Qed.

Lemma re_lazy_to_slash_group g : forall cur rest,
  Str.forallb group_char g = true ->
  re_lazy_to_slash cur (g +:+ String Str.SLASH rest) = Some (cur +:+ g).
Proof.
  induction g as [|c g IH]; intros cur rest Hg.
  - rewrite str_app_nil_l, str_app_nil_r. cbn [re_lazy_to_slash].
    by rewrite bool_decide_eq_true_2.
  - simpl in Hg. apply andb_prop in Hg as [Hc Hg].
    unfold group_char in Hc. apply andb_prop in Hc as [Hs Hl].
    unfold not_slash in Hs. apply negb_true_iff in Hs, Hl.
    rewrite str_app_cons. cbn [re_lazy_to_slash]. rewrite Hs, Hl.
    by rewrite IH, snoc_app.
Qed.

Lemma re_lazy_to_slash_sound s : forall cur g,
  re_lazy_to_slash cur s = Some g ->
  exists g' rest,
    g = cur +:+ g' /\ s = g' +:+ String Str.SLASH rest
    /\ Str.forallb group_char g' = true.
Proof.
  induction s as [|c s IH]; intros cur g; [discriminate|].
  cbn [re_lazy_to_slash]. case_bool_decide as Hc.
  - intros [= <-]. exists "", s. subst c. by rewrite str_app_nil_r.
  - destruct (Str.is_lf c) eqn:Hl; [discriminate|].
    intros (g' & rest & -> & -> & Hg)%IH.
    exists (String c g'), rest. rewrite snoc_app. split; [done|].
    split; [done|]. simpl. rewrite Hg, andb_true_r.
    unfold group_char, not_slash. rewrite Hl.
    by rewrite bool_decide_eq_false_2.
Qed.

Lemma group_char_not_slash g :
  Str.forallb group_char g = true -> Str.forallb not_slash g = true.
Proof.
  apply forallb_impl. intros c Hc. unfold group_char in Hc.
  by apply andb_prop in Hc as [? _].
Qed.

(** X1. A group that [re.match] returns for one of the two patterns has
    no slash and no line feed inside, and it is followed by a slash in the
    matched string. *)
Theorem re_match_group_sound prefix s g :
  re_match_group prefix s = Some g ->
  Str.forallb group_char g = true
  /\ exists head rest,
       s = head +:+ g +:+ String Str.SLASH rest
       /\ String.length head = String.length prefix.
Proof.
  unfold re_match_group.
  destruct (re_prefix prefix s) as [tail|] eqn:Hp; [|discriminate].
  intros (g' & rest & -> & -> & Hg)%re_lazy_to_slash_sound.
  rewrite str_app_nil_l. split; [exact Hg|].
  revert s Hp. induction prefix as [|p prefix IH]; intros s Hp.
  - injection Hp as ->. by exists "", rest.
  - destruct s as [|c s]; [discriminate|]. cbn [re_prefix] in Hp.
    destruct (if bool_decide (p = "."%char) then _ else _); [|discriminate].
    destruct (IH s Hp) as (head & rest' & -> & Hlen).
    exists (String c head), rest'. split; [reflexivity|]. simpl. by rewrite Hlen.
Qed.

Lemma re_match_group_sound_witness :
  Str.forallb group_char "bob" = true
  /\ exists head rest,
       "https://checkio.org/user/bob/" = head +:+ "bob" +:+ String Str.SLASH rest
       /\ String.length head = String.length USERNAME_PATTERN.
Proof.
  apply (re_match_group_sound USERNAME_PATTERN "https://checkio.org/user/bob/").
  reflexivity.
Defined.

(** X2. The pages the script builds from a name are read back by its
    patterns: the solution page of a mission gives its [url_name], and the
    listing page of a user gives the user name, for every name without
    slash and line feed. *)
Theorem page_of_name_matches name :
  Str.forallb group_char name = true ->
  re_match_group MISSION_NAME_PATTERN (SOLUTION_PAGE name) = Some name
  /\ re_match_group USERNAME_PATTERN (MISSIONS_PAGE name) = Some name.
Proof.
  intros Hn. unfold re_match_group, SOLUTION_PAGE, MISSIONS_PAGE.
  change "https://checkio.org/mission/" with MISSION_NAME_PATTERN.
  change "https://checkio.org/user/" with USERNAME_PATTERN.
  rewrite !re_prefix_itself.
  change ("/solve/") with (String Str.SLASH "solve/").
  change ("/list/") with (String Str.SLASH "list/").
  by rewrite !re_lazy_to_slash_group.
Qed.

Lemma page_of_name_matches_witness :
  re_match_group MISSION_NAME_PATTERN (SOLUTION_PAGE "house-password")
  = Some "house-password"
  /\ re_match_group USERNAME_PATTERN (MISSIONS_PAGE "house-password")
     = Some "house-password".
Proof. apply (page_of_name_matches "house-password"). reflexivity. Defined.

(** ** Logging in *)

Lemma startswith_app p s :
  Str.startswith p s = true -> exists rest, s = p +:+ rest.
Proof.
  revert s. induction p as [|a p IH]; intros s; [by exists s|].
  destruct s as [|b s]; [discriminate|]. simpl.
  intros [Hab Hs]%andb_prop. apply bool_decide_eq_true in Hab as ->.
  destruct (IH s Hs) as [rest ->]. by exists rest.
Qed.

(** X3. When the browser ends on the login page, [get_username] finds no
    user name: it returns [None] and says that the user is not logged
    in. *)
Theorem get_username_on_login_page browser w :
  Str.startswith LOGIN_PAGE (profile_url (remote w)) = true ->
  get_username browser w
  = (Ok None,
     emits [BrowserGet USER_PAGE;
            Print "ERROR: It looks like you're not logged in."] w).
Proof.
  intros Hs. unfold get_username.
  erewrite bind_ok by reflexivity. erewrite bind_ok by reflexivity.
  cbn [remote emit]. unfold try_except.
  destruct (startswith_app _ _ Hs) as [rest Hr].
  assert (Hno : re_match_group USERNAME_PATTERN (profile_url (remote w)) = None)
    by (rewrite Hr; reflexivity).
  rewrite Hno. unfold raise. cbv iota beta.
  erewrite bind_ok; [|unfold when; rewrite Hs; reflexivity].
  unfold ret. by rewrite !emit_emits, emits_emits.
Qed.

Lemma get_username_on_login_page_witness :
  let w := fresh_world
             (Site (fun _ => true) "https://checkio.org/profile/login/?next=/"
                [] (fun _ => ReadStale) (fun _ => "")) 0 in
  get_username Firefox w
  = (Ok None,
     emits [BrowserGet USER_PAGE;
            Print "ERROR: It looks like you're not logged in."] w).
Proof.
  intros w. apply (get_username_on_login_page Firefox w). reflexivity.
Defined.

(** X4. When the browser ends on the profile page of a user, [get_username]
    returns the name between the user prefix and the next slash, and
    prints nothing. *)
Theorem get_username_of_profile browser w name rest :
  Str.forallb group_char name = true ->
  profile_url (remote w) = USER_PAGE +:+ name +:+ String Str.SLASH rest ->
  get_username browser w = (Ok (Some name), emits [BrowserGet USER_PAGE] w).
Proof.
  intros Hn Hu. unfold get_username.
  erewrite bind_ok by reflexivity. erewrite bind_ok by reflexivity.
  cbn [remote emit]. unfold try_except, re_match_group. rewrite Hu.
  change USER_PAGE with USERNAME_PATTERN.
  rewrite re_prefix_itself, re_lazy_to_slash_group by done.
  reflexivity.
Qed.

Lemma get_username_of_profile_witness :
  get_username Firefox sample_world
  = (Ok (Some "bob"), emits [BrowserGet USER_PAGE] sample_world).
Proof.
  apply (get_username_of_profile Firefox sample_world "bob" "");
    reflexivity.
Defined.

Lemma remote_emit e w : remote (emit e w) = remote w.
Proof. reflexivity. Qed.

(** X5. [get_browser] never raises and always loads the user page once.
    With a session cookie it adds the cookie and does nothing else. Without
    one it clicks the login button exactly when user name and password are
    given and the login form has its three elements, and it waits for the
    operator exactly when it did not click. It never touches the disk. *)
Theorem get_browser_outcome sid user password w :
  exists l,
    get_browser sid user password w = (Ok Firefox, emits l w)
    /\ no_disk_event l
    /\ loaded l = [USER_PAGE]
    /\ (truthy sid = true ->
        l = [BrowserGet USER_PAGE; AddCookie "sessionid" (default "" sid)])
    /\ (truthy sid = false ->
        let form := truthy user && truthy password && login_form (remote w) in
        existsb is_click l = form
        /\ existsb is_input l = negb form).
Proof.
  unfold get_browser, login_form, try_except, bind, find_element, browser_get,
    modify, ret, print.
  destruct (truthy sid), (truthy user), (truthy password);
    cbn -[emit default USER_PAGE]; rewrite ?remote_emit;
    repeat match goal with
           | |- context [login_elems ?r ?e] =>
               destruct (login_elems r e);
               cbn -[emit default USER_PAGE]; rewrite ?remote_emit
           end;
    rewrite !emit_emits, ?emits_emits; eexists;
    (split; [reflexivity|]);
    (split; [unfold no_disk_event; simpl; repeat constructor|]);
    repeat split; done.
Qed.

(** ** Reading the catalogue *)

Lemma get_task_ok task m w :
  task_mission task = Some m -> get_task task w = (Ok m, w).
Proof.
  unfold task_mission, get_task.
  destruct (task_img task); [|discriminate].
  destruct (task_href task); [|discriminate].
  destruct (re_match_group _ _); [|discriminate]. by intros [= <-].
Qed.

Lemma get_task_inv task m w w' :
  get_task task w = (Ok m, w') -> task_mission task = Some m.
Proof.
  unfold task_mission, get_task.
  destruct (task_img task); [|discriminate].
  destruct (task_href task); [|discriminate].
  destruct (re_match_group _ _); [|discriminate]. by intros [= <- _].
Qed.

Lemma get_tasks_ok tasks : forall ms task_list w,
  Forall2 (fun task m => task_mission task = Some m) tasks ms ->
  get_tasks tasks task_list w = (Ok (task_list ++ ms), w).
Proof.
  induction tasks as [|task rest IH]; intros ms task_list w H.
  - apply Forall2_nil_inv_l in H as ->. by rewrite app_nil_r.
  - apply Forall2_cons_inv_l in H as (m & ms' & Hm & Hr & ->).
    cbn [get_tasks]. erewrite bind_ok by (by apply get_task_ok).
    rewrite (IH ms'), <- app_assoc by done. reflexivity.
Qed.

Lemma get_tasks_inv tasks : forall task_list w r w',
  get_tasks tasks task_list w = (Ok r, w') ->
  exists ms, Forall2 (fun task m => task_mission task = Some m) tasks ms
             /\ r = task_list ++ ms.
Proof.
  induction tasks as [|task rest IH]; intros task_list w r w'.
  - intros [= <- _]. exists []. by rewrite app_nil_r.
  - cbn [get_tasks]. unfold bind at 1.
    destruct (get_task task w) as [[m|e] w1] eqn:Ht; [|discriminate].
    intros (ms & Hms & ->)%IH. exists (m :: ms). split.
    + constructor; [by eapply get_task_inv|done].
    + by rewrite <- app_assoc.
Qed.

Lemma dict_set_keys {V} (d : list (string * V)) k v :
  (dict_set d k v).*1 = if bool_decide (k ∈ d.*1) then d.*1 else d.*1 ++ [k].
Proof.
  induction d as [|[k' v'] d IH]; [reflexivity|]. cbn [dict_set].
  unfold Str.eqb. cbn [fmap list_fmap fst] in *.
  destruct (decide (k' = k)) as [->|Hne].
  - rewrite (bool_decide_eq_true_2 (k = k)) by done.
    cbn [fmap list_fmap fst].
    rewrite bool_decide_eq_true_2; [done|]. apply list_elem_of_here.
  - rewrite (bool_decide_eq_false_2 (k' = k)) by done.
    cbn [fmap list_fmap fst]. rewrite IH.
    destruct (decide (k ∈ d.*1)) as [Hin|Hin].
    + rewrite !bool_decide_eq_true_2; [done| |done].
      by apply list_elem_of_further.
    + rewrite !bool_decide_eq_false_2; [done| |done].
      intros [?|?]%elem_of_cons; congruence.
Qed.

Lemma dict_set_NoDup {V} (d : list (string * V)) k v :
  NoDup d.*1 -> NoDup (dict_set d k v).*1.
Proof.
  intros Hd. rewrite dict_set_keys. case_bool_decide as Hin; [done|].
  apply NoDup_app. split; [done|]. split; [|apply NoDup_singleton].
  intros x Hx ->%list_elem_of_singleton. done.
Qed.

Lemma dict_set_values {V} (d : list (string * V)) k v k' v' :
  (k', v') ∈ dict_set d k v -> (k', v') = (k, v) \/ (k', v') ∈ d.
Proof.
  induction d as [|[k0 v0] d IH]; cbn [dict_set].
  - intros ->%list_elem_of_singleton. by left.
  - destruct (Str.eqb k0 k).
    + intros [->|?]%elem_of_cons; [by left|right; by apply list_elem_of_further].
    + intros [->|H]%elem_of_cons; [right; apply list_elem_of_here|].
      destruct (IH H) as [?|?]; [by left|right; by apply list_elem_of_further].
Qed.

Lemma dict_set_fresh {V} (d : list (string * V)) k v :
  k ∉ d.*1 -> dict_set d k v = d ++ [(k, v)].
Proof.
  induction d as [|[k' v'] d IH]; [reflexivity|]. cbn [dict_set].
  intros Hk. cbn [fmap list_fmap fst] in Hk.
  apply not_elem_of_cons in Hk as [Hne Hk]. unfold Str.eqb.
  rewrite bool_decide_eq_false_2 by congruence. by rewrite IH.
Qed.

(** What [get_sections] returns, when it returns: every section element
    was well formed, the keys are those of the mapping so far and the
    headers, without repeats, and every value comes from the mapping so
    far or holds the missions of complete tasks. *)
Lemma get_sections_inv sections : forall section_list w r w',
  get_sections sections section_list w = (Ok r, w') ->
  NoDup section_list.*1 ->
  Forall well_formed_section sections
  /\ NoDup r.*1
  /\ (forall k ms, (k, ms) ∈ r ->
        (k, ms) ∈ section_list
        \/ exists section,
             section ∈ sections /\ section_entry section (k, ms)).
Proof.
  induction sections as [|section rest IH]; intros section_list w r w'.
  - intros [= <- _] Hd. split; [constructor|]. split; [done|]. by left.
  - cbn [get_sections].
    destruct (section_header section) as [title|] eqn:Hh; [|discriminate].
    unfold bind at 1.
    destruct (get_tasks (section_tasks section) [] w) as [[ms|e] w1] eqn:Ht;
      [|discriminate].
    apply get_tasks_inv in Ht as (ms' & Hms & ->). rewrite app_nil_l.
    intros Hr Hd.
    destruct (IH _ _ _ _ Hr (dict_set_NoDup _ title ms' Hd))
      as (Hwf & Hnd & Hval).
    split; [|split; [exact Hnd|]].
    + constructor; [|exact Hwf]. split; [by rewrite Hh|].
      clear -Hms. induction Hms; constructor; [by eexists|done].
    + intros k ms Hk. destruct (Hval k ms Hk) as [Hin|(sec & Hsec & He)].
      * apply dict_set_values in Hin as [[= -> ->]|Hin]; [|by left].
        right. exists section. split; [apply list_elem_of_here|]. by split.
      * right. exists sec. split; [by apply list_elem_of_further|done].
Qed.

Lemma get_sections_ok sections : forall entries section_list w,
  Forall2 section_entry sections entries ->
  NoDup (section_list.*1 ++ entries.*1) ->
  get_sections sections section_list w = (Ok (section_list ++ entries), w).
Proof.
  induction sections as [|section rest IH]; intros entries section_list w H Hd.
  - apply Forall2_nil_inv_l in H as ->. by rewrite app_nil_r.
  - apply Forall2_cons_inv_l in H as ([k ms] & entries' & [Hk Hms] & Hr & ->).
    cbn [get_sections]. simpl in Hk, Hms. rewrite Hk.
    erewrite bind_ok by (by apply get_tasks_ok). rewrite app_nil_l.
    cbn [fmap list_fmap fst] in Hd.
    assert (Hfresh : k ∉ section_list.*1).
    { apply NoDup_app in Hd as (_ & Hd & _). intros Hin.
      apply (Hd k Hin). apply list_elem_of_here. }
    rewrite dict_set_fresh by done.
    rewrite (IH entries'); [by rewrite <- app_assoc|done|].
    rewrite fmap_app. cbn [fmap list_fmap fst]. by rewrite <- app_assoc.
Qed.

Lemma re_match_group_chars prefix s g :
  re_match_group prefix s = Some g -> Str.forallb group_char g = true.
Proof.
  unfold re_match_group. destruct (re_prefix prefix s); [|discriminate].
  intros (g' & rest & -> & _ & Hg)%re_lazy_to_slash_sound. exact Hg.
Qed.

Lemma task_mission_slug task m :
  task_mission task = Some m ->
  task_img task = Some (title m)
  /\ Str.forallb group_char (url_name m) = true.
Proof.
  unfold task_mission. destruct (task_img task) as [t|]; [|discriminate].
  destruct (task_href task) as [h|]; [|discriminate].
  destruct (re_match_group _ h) as [g|] eqn:Hg; [|discriminate].
  intros [= <-]. split; [reflexivity|]. by eapply re_match_group_chars.
Qed.

Lemma tasks_missions tasks :
  Forall (fun task => is_Some (task_mission task)) tasks ->
  exists ms, Forall2 (fun task m => task_mission task = Some m) tasks ms.
Proof.
  induction 1 as [|task rest [m Hm] _ [ms IH]]; [by exists []|].
  exists (m :: ms). by constructor.
Qed.

Lemma get_sections_well_formed sections : forall section_list w,
  Forall well_formed_section sections ->
  exists r, get_sections sections section_list w = (Ok r, w).
Proof.
  induction sections as [|section rest IH]; intros section_list w H.
  - by eexists.
  - apply Forall_cons in H as [[[k Hk] Ht] Hr].
    destruct (tasks_missions _ Ht) as [ms Hms].
    cbn [get_sections]. rewrite Hk.
    erewrite bind_ok by (by apply get_tasks_ok). by apply IH.
Qed.

(** X6. [get_missions] never returns a part of the catalogue. When every
    section element has its header and every task its image, its link and
    a matching href, it returns a mapping and prints nothing. Otherwise it
    prints its error and returns the empty mapping, or the
    [AttributeError] of an href that did not match leaves it. *)
Theorem get_missions_all_or_nothing browser username w :
  let w0 := emit (BrowserGet (MISSIONS_PAGE username)) w in
  (Forall well_formed_section (listing (remote w)) ->
   exists missions, get_missions browser username w = (Ok missions, w0))
  /\ (~ Forall well_formed_section (listing (remote w)) ->
      get_missions browser username w = (Ok [], emit parse_error w0)
      \/ get_missions browser username w = (Raise AttributeError, w0)).
Proof.
  intros w0. destruct (get_missions_cases browser username w) as [Hm Hc].
  fold w0 in Hm. cbv zeta in Hc. split.
  - intros Hwf.
    destruct (get_sections_well_formed _ [] w Hwf) as [r Hr].
    rewrite Hr in Hm. simpl in Hm. by exists r.
  - intros Hwf. destruct Hc as [[r Hr]|[Hr|Hr]]; rewrite Hr in Hm.
    + exfalso. apply Hwf.
      destruct (get_sections (listing (remote w)) [] w) as [r' w'] eqn:Hs.
      simpl in Hr. subst r'.
      by destruct (get_sections_inv _ _ _ _ _ Hs (NoDup_nil_2)) as [? _].
    + by left.
    + by right.
Qed.

Lemma get_missions_all_or_nothing_witness :
  let w := fresh_world headless_site 100 in
  get_missions Firefox "bob" w
  = (Ok [], emit parse_error (emit (BrowserGet (MISSIONS_PAGE "bob")) w))
  \/ get_missions Firefox "bob" w
     = (Raise AttributeError, emit (BrowserGet (MISSIONS_PAGE "bob")) w).
Proof.
  intros w.
  apply (proj2 (get_missions_all_or_nothing Firefox "bob" w)).
  intros H. apply Forall_cons in H as [[[k Hk] _] _]. discriminate.
Defined.

(** X7. In the mapping [get_missions] returns no section name occurs
    twice, and every mission comes from a task of a section with that
    header: its title is the title of the image, and its [url_name] has no
    slash and no line feed, so that its file name is one plain
    component. *)
Theorem get_missions_mapping browser username w missions w' :
  get_missions browser username w = (Ok missions, w') ->
  NoDup missions.*1
  /\ (forall k ms m,
        (k, ms) ∈ missions -> m ∈ ms ->
        Str.forallb group_char (url_name m) = true
        /\ plain_name (filename_of m) = true
        /\ exists section task,
             section ∈ listing (remote w)
             /\ section_header section = Some k
             /\ task ∈ section_tasks section
             /\ task_img task = Some (title m)).
Proof.
  destruct (get_missions_cases browser username w) as [Hm Hc].
  cbv zeta in Hc. rewrite Hm.
  destruct (get_sections (listing (remote w)) [] w) as [r0 w0] eqn:Hs.
  simpl in Hc |- *. destruct Hc as [[r ->]|[->| ->]]; [| |discriminate].
  - intros [= <- _].
    destruct (get_sections_inv _ _ _ _ _ Hs NoDup_nil_2) as (_ & Hnd & Hval).
    split; [exact Hnd|]. intros k ms m Hk Hin.
    destruct (Hval k ms Hk) as [Hin'|(section & Hsec & Hh & Ht)];
      [by apply elem_of_nil in Hin'|]. simpl in Hh, Ht.
    destruct (proj1 (list_elem_of_lookup ms m) Hin) as [i Hi].
    destruct (Forall2_lookup_r _ _ _ _ _ Ht Hi) as (task & Htask & Hmis).
    destruct (task_mission_slug _ _ Hmis) as [Himg Hslug].
    split; [exact Hslug|]. split.
    + apply filename_plain. by apply group_char_not_slash.
    + exists section, task. repeat split; try done.
      apply list_elem_of_lookup. by exists i.
  - intros [= <- _]. split; [constructor|].
    intros k ms m Hk. by apply elem_of_nil in Hk.
Qed.

Lemma get_missions_mapping_witness :
  let missions := [("Basics", [add_mission]); ("", [mystery_mission])] in
  NoDup missions.*1
  /\ (forall k ms m,
        (k, ms) ∈ missions -> m ∈ ms ->
        Str.forallb group_char (url_name m) = true
        /\ plain_name (filename_of m) = true
        /\ exists section task,
             section ∈ listing (remote sample_world)
             /\ section_header section = Some k
             /\ task ∈ section_tasks section
             /\ task_img task = Some (title m)).
Proof.
  intros missions.
  apply (get_missions_mapping Firefox "bob" sample_world missions
           (emit (BrowserGet (MISSIONS_PAGE "bob")) sample_world)).
  reflexivity.
Defined.

(** X8. When the headers of the page are all different, the mapping lists
    the sections in the order of the page, each with the missions of its
    tasks in their order. *)
Theorem get_missions_in_page_order browser username w entries :
  Forall2 section_entry (listing (remote w)) entries ->
  NoDup entries.*1 ->
  get_missions browser username w
  = (Ok entries, emit (BrowserGet (MISSIONS_PAGE username)) w).
Proof.
  intros He Hd. destruct (get_missions_cases browser username w) as [Hm _].
  rewrite Hm. by rewrite (get_sections_ok _ entries []).
Qed.

Lemma get_missions_in_page_order_witness :
  get_missions Firefox "bob" sample_world
  = (Ok [("Basics", [add_mission]); ("", [mystery_mission])],
     emit (BrowserGet (MISSIONS_PAGE "bob")) sample_world).
Proof.
  apply (get_missions_in_page_order Firefox "bob" sample_world).
  - repeat constructor.
  - cbn. apply NoDup_cons. split; [|apply NoDup_singleton].
    intros H%list_elem_of_singleton. discriminate.
Defined.

Lemma get_sections_app a b : forall section_list w,
  get_sections (a ++ b) section_list w =
  match get_sections a section_list w with
  | (Ok d, w1) => get_sections b d w1
  | (Raise e, w1) => (Raise e, w1)
  end.
Proof.
  induction a as [|section a IH]; intros section_list w; [reflexivity|].
  rewrite <- app_comm_cons. cbn [get_sections].
  destruct (section_header section); [|reflexivity].
  unfold bind.
  destruct (get_tasks (section_tasks section) [] w) as [[ms|e] w1];
    [apply IH|reflexivity].
Qed.

Lemma replaced_absent {V} (d : list (string * V)) k v :
  k ∉ d.*1 -> replaced k v d = d.
Proof.
  unfold replaced. induction d as [|[k' v'] d IH]; [reflexivity|].
  cbn [fmap list_fmap fst]. intros [Hne Hk]%not_elem_of_cons.
  rewrite bool_decide_eq_false_2 by (simpl; congruence).
  f_equal. by apply IH.
Qed.

Lemma dict_set_replace {V} (d : list (string * V)) k v :
  k ∈ d.*1 -> NoDup d.*1 -> dict_set d k v = replaced k v d.
Proof.
  induction d as [|[k' v'] d IH]; [by intros ?%elem_of_nil|].
  cbn [fmap list_fmap fst dict_set]. intros Hin [Hk' Hd]%NoDup_cons.
  unfold Str.eqb. destruct (decide (k' = k)) as [->|Hne].
  - rewrite bool_decide_eq_true_2 by done.
    change (replaced k v ((k, v') :: d))
      with ((if bool_decide (k = k) then (k, v) else (k, v'))
            :: replaced k v d).
    rewrite bool_decide_eq_true_2 by done. by rewrite replaced_absent.
  - rewrite bool_decide_eq_false_2 by done.
    change (replaced k v ((k', v') :: d))
      with ((if bool_decide (k' = k) then (k, v) else (k', v'))
            :: replaced k v d).
    rewrite bool_decide_eq_false_2 by done. f_equal. apply IH; [|done].
    apply elem_of_cons in Hin as [?|?]; [congruence|done].
Qed.

(** X9. A header that comes again replaces the missions read under it
    before: the mapping keeps the place of the first section with that
    header and holds the missions of the last one; the missions of the
    first are gone. *)
Theorem get_missions_repeated_header browser username w sections entries
    last k ms :
  listing (remote w) = sections ++ [last] ->
  Forall2 section_entry sections entries ->
  NoDup entries.*1 ->
  section_entry last (k, ms) ->
  k ∈ entries.*1 ->
  get_missions browser username w
  = (Ok (replaced k ms entries), emit (BrowserGet (MISSIONS_PAGE username)) w).
Proof.
  intros Hl He Hd [Hh Ht] Hk. simpl in Hh, Ht.
  destruct (get_missions_cases browser username w) as [Hm _].
  rewrite Hm, Hl, get_sections_app.
  rewrite (get_sections_ok _ entries []) by done. rewrite app_nil_l.
  cbn [get_sections]. rewrite Hh.
  erewrite bind_ok by (by apply get_tasks_ok). rewrite app_nil_l.
  unfold ret. simpl. by rewrite dict_set_replace.
Qed.

Lemma get_missions_repeated_header_witness :
  let w := fresh_world repeated_site 0 in
  get_missions Firefox "bob" w
  = (Ok (replaced "Basics" [mystery_mission] [("Basics", [add_mission])]),
     emit (BrowserGet (MISSIONS_PAGE "bob")) w).
Proof.
  intros w.
  apply (get_missions_repeated_header Firefox "bob" w
           [Section_ (Some "Basics")
              [Task (Some "Add") (Some "https://checkio.org/mission/add/")]]
           [("Basics", [add_mission])]
           (Section_ (Some "Basics")
              [Task (Some "Mystery")
                 (Some "https://checkio.org/mission/myst/")])
           "Basics" [mystery_mission]).
  - reflexivity.
  - repeat constructor.
  - apply NoDup_singleton.
  - repeat constructor.
  - apply list_elem_of_here.
Defined.

(** ** Making and entering directories *)

Lemma only_new_dirs_refl w : only_new_dirs w w.
Proof. intros q. by left. Qed.

Lemma only_new_dirs_trans w1 w2 w3 :
  only_new_dirs w1 w2 -> only_new_dirs w2 w3 -> only_new_dirs w1 w3.
Proof.
  intros H12 H23 q. destruct (H12 q) as [E|[E1 E2]], (H23 q) as [F|[F1 F2]].
  - left. congruence.
  - right. split; congruence.
  - right. split; congruence.
  - congruence.
Qed.

Lemma walk_result m comps : forall cur,
  match walk m cur comps with
  | inr d => m !! d = Some Dir
  | inl e => e = NotADirectoryError \/ e = FileNotFoundError
  end.
Proof.
  induction comps as [|c rest IH]; intros cur.
  - rewrite walk_nil. destruct (m !! cur) as [[|x]|] eqn:E; auto.
  - rewrite walk_cons. destruct (m !! cur) as [[|x]|] eqn:E; auto.
    apply IH.
Qed.

(** [os.makedirs] stays where it is, only adds directories, and fails with
    one of three errors. *)
Lemma mkdirs_grows comps : forall cur w r w',
  mkdirs cur comps w = (r, w') ->
  cwd w' = cwd w /\ only_new_dirs w w'
  /\ (r = Ok tt \/ r = Raise (OSError NotADirectoryError)
      \/ r = Raise (OSError FileNotFoundError)
      \/ r = Raise (OSError FileExistsError)).
Proof.
  induction comps as [|c rest IH]; intros cur w r w'.
  - rewrite mkdirs_nil. destruct (fs w !! cur) as [[|x]|];
      intros [= <- <-]; (split; [done|]); (split; [apply only_new_dirs_refl|]);
      auto.
  - rewrite mkdirs_cons. destruct (fs w !! cur) as [[|x]|].
    2,3: intros [= <- <-]; (split; [done|]);
         (split; [apply only_new_dirs_refl|]); auto.
    destruct (is_dots c); [apply IH|].
    destruct (fs w !! (cur ++ [c])) as [[|x]|] eqn:E; [apply IH| |].
    + intros [= <- <-]. split; [done|]. split; [apply only_new_dirs_refl|].
      destruct (forallb _ _); auto.
    + intros (Hc & Hg & Hr)%IH. split; [exact Hc|]. split; [|exact Hr].
      eapply only_new_dirs_trans; [|exact Hg].
      intros q. unfold made; simpl.
      destruct (decide (q = cur ++ [c])) as [->|Hne].
      * right. by rewrite lookup_insert_eq.
      * left. by rewrite lookup_insert_ne.
Qed.

(** X10. [create_and_switch_to_dir] changes the disk only by adding
    directories: no file and no directory is lost or altered. When it
    returns, the working directory is a directory of the disk. When it
    fails, the working directory is the one before, and the error is a
    plain [IOError] or [FileExistsError]: the caller never sees
    [NotADirectoryError] or [FileNotFoundError]. *)
Theorem create_and_switch_to_dir_outcome dir_path w r w' :
  create_and_switch_to_dir dir_path w = (r, w') ->
  only_new_dirs w w'
  /\ ((r = Ok tt /\ fs w' !! cwd w' = Some Dir)
      \/ ((r = Raise (OSError PlainOSError)
           \/ r = Raise (OSError FileExistsError))
          /\ cwd w' = cwd w)).
Proof.
  unfold create_and_switch_to_dir, try_except, bind at 1, os_makedirs.
  destruct (Str.is_empty dir_path) eqn:He.
  { intros [= <- <-]. split; [apply only_new_dirs_refl|]. right. auto. }
  destruct (mkdirs _ _ w) as [r1 w1] eqn:Hmk.
  apply mkdirs_grows in Hmk as (Hc & Hg & Hr).
  destruct Hr as [->|[->|[->| ->]]].
  - unfold os_chdir. rewrite He.
    pose proof (walk_result (fs w1) (Str.split_slash dir_path)
                  (start w1 dir_path)) as Hw.
    destruct (walk _ _ _) as [e|d].
    + destruct Hw as [->| ->]; intros [= <- <-]; (split; [exact Hg|]);
        right; auto.
    + intros [= <- <-]. split; [exact Hg|]. left. split; [done|exact Hw].
  - intros [= <- <-]. split; [exact Hg|]. right. auto.
  - intros [= <- <-]. split; [exact Hg|]. right. auto.
  - intros [= <- <-]. split; [exact Hg|]. right. auto.
Qed.

Lemma create_and_switch_to_dir_outcome_witness :
  let w' := snd (create_and_switch_to_dir "out/../Basics/x" blocked_world) in
  let r : result unit := Raise (OSError PlainOSError) in
  only_new_dirs blocked_world w'
  /\ ((r = Ok tt /\ fs w' !! cwd w' = Some Dir)
      \/ ((r = Raise (OSError PlainOSError)
           \/ r = Raise (OSError FileExistsError))
          /\ cwd w' = cwd blocked_world)).
Proof.
  intros w' r.
  apply (create_and_switch_to_dir_outcome "out/../Basics/x" blocked_world).
  vm_compute. reflexivity.
Defined.

(** The directories of [w] are directories of [w']. *)
Lemma only_new_dirs_keeps w w' d :
  only_new_dirs w w' -> fs w !! d = Some Dir -> fs w' !! d = Some Dir.
Proof. intros H Hd. destruct (H d) as [E|[E _]]; congruence. Qed.

Lemma mkdirs_again comps : forall cur w w',
  mkdirs cur comps w = (Ok tt, w') ->
  forall w2, (forall d, fs w' !! d = Some Dir -> fs w2 !! d = Some Dir) ->
             mkdirs cur comps w2 = (Ok tt, w2).
Proof.
  induction comps as [|c rest IH]; intros cur w w'.
  - rewrite mkdirs_nil. destruct (fs w !! cur) as [[|x]|] eqn:E;
      intros [= <-]. intros w2 H2. by rewrite mkdirs_nil, (H2 _ E).
  - rewrite mkdirs_cons. destruct (fs w !! cur) as [[|x]|] eqn:E;
      try discriminate.
    assert (Hkeep : forall w0, mkdirs (step cur c) rest w0 = (Ok tt, w')
                           \/ mkdirs (cur ++ [c]) rest w0 = (Ok tt, w') ->
                           forall d, fs w0 !! d = Some Dir ->
                                     fs w' !! d = Some Dir).
    { intros w0 [H|H] d Hd; apply mkdirs_grows in H as (_ & Hg & _);
        by eapply only_new_dirs_keeps. }
    destruct (is_dots c) eqn:Hdots.
    + intros Hm w2 H2. rewrite mkdirs_cons, Hdots.
      rewrite (H2 _ (Hkeep w (or_introl Hm) _ E)). by eapply IH.
    + destruct (fs w !! (cur ++ [c])) as [[|x]|] eqn:Ec; try discriminate.
      * intros Hm w2 H2. rewrite mkdirs_cons, Hdots.
        rewrite (H2 _ (Hkeep w (or_intror Hm) _ E)).
        rewrite (H2 _ (Hkeep w (or_intror Hm) _ Ec)). by eapply IH.
      * intros Hm w2 H2. rewrite mkdirs_cons, Hdots.
        assert (Hcur : fs (made (cur ++ [c]) w) !! cur = Some Dir).
        { unfold made; simpl.
          by rewrite lookup_insert_ne by (symmetry; apply path_snoc_ne). }
        assert (Hsub : fs (made (cur ++ [c]) w) !! (cur ++ [c]) = Some Dir).
        { unfold made; simpl. by rewrite lookup_insert_eq. }
        rewrite (H2 _ (Hkeep _ (or_intror Hm) _ Hcur)).
        rewrite (H2 _ (Hkeep _ (or_intror Hm) _ Hsub)). by eapply IH.
Qed.

(** X11. [os.makedirs(.., exist_ok=True)] as the script calls it can be
    repeated: once a path has been made, making it again from the same
    working directory succeeds and changes nothing. *)
Theorem os_makedirs_again name w w' :
  os_makedirs name w = (Ok tt, w') ->
  os_makedirs name w' = (Ok tt, w').
Proof.
  unfold os_makedirs. destruct (Str.is_empty name); [discriminate|].
  intros Hm.
  assert (Hc : start w' name = start w name).
  { unfold start. apply mkdirs_grows in Hm as (-> & _). reflexivity. }
  rewrite Hc. by eapply mkdirs_again.
Qed.

Lemma os_makedirs_again_witness :
  let w' := snd (os_makedirs "out/x/../y" sample_world) in
  os_makedirs "out/x/../y" w' = (Ok tt, w').
Proof.
  intros w'. apply (os_makedirs_again "out/x/../y" sample_world).
  vm_compute. reflexivity.
Defined.

(** ** Writing one solution *)

Lemma no_disk_event_concerns p l :
  no_disk_event l -> Forall (concerns p) l.
Proof.
  intros H. eapply Forall_impl; [exact H|]. intros e He. by destruct e.
Qed.

Lemma appends_concern p l : Forall (is_append_to p) l -> Forall (concerns p) l.
Proof. intros H. eapply Forall_impl; [exact H|]. by intros e [s ->]. Qed.

(** What [write_solution_to_file] does to the disk, whatever its
    result. *)
Lemma write_solution_to_file_disk browser m w r w' :
  Str.forallb not_slash (url_name m) = true ->
  write_solution_to_file browser m w = (r, w') ->
  cwd w' = cwd w
  /\ (forall q, q ≠ cwd w ++ [filename_of m] -> fs w' !! q = fs w !! q)
  /\ exists l, log w' = log w ++ l
               /\ Forall (concerns (cwd w ++ [filename_of m])) l.
Proof.
  intros Hslug. pose proof (filename_plain _ Hslug) as Hplain.
  fold (filename_of m) in Hplain.
  destruct (get_solution_runs browser (url_name m) w)
    as (r0 & n & l0 & Hg & Hquiet & _).
  rewrite (write_solution_to_file_fetch _ _ _ _ _ Hg).
  apply (no_disk_event_concerns (cwd w ++ [filename_of m])) in Hquiet.
  destruct (falsy_lines r0).
  { intros [= <- <-]. split; [done|]. split; [done|]. by exists l0. }
  cbv zeta. destruct (bool_decide _).
  { intros [= <- <-]. split; [done|]. split; [done|]. by exists l0. }
  set (w2 := stamped (progressed n l0 w)).
  destruct (overwrite_cases (filename_of m)
              (code_of m (progressed n l0 w) (default [] r0)) w2)
    as [(o & _ & ->)|[(p & Ho & _ & _ & ->)|(p & l & Ho & _ & _ & Hl & ->)]].
  - intros [= <- <-]. split; [done|]. split; [done|]. by exists l0.
  - apply (open_w_plain _ _ _ _ Hplain) in Ho as [-> _].
    intros [= <- <-]. split; [done|]. split.
    + intros q Hq. unfold emits, filled, opened, emit, set_disk; simpl.
      by rewrite !lookup_insert_ne by done.
    + eexists. unfold emits, filled, opened, emit, set_disk; simpl.
      rewrite <- !app_assoc. split; [reflexivity|].
      apply Forall_app. split; [done|]. constructor; [done|].
      constructor; [done|]. apply appends_concern, appends_map.
  - apply (open_w_plain _ _ _ _ Hplain) in Ho as [-> _].
    intros [= <- <-]. split; [done|]. split.
    + intros q Hq. unfold removed, emits, filled, opened, emit, set_disk; simpl.
      rewrite lookup_delete_ne by done.
      by rewrite !lookup_insert_ne by done.
    + eexists. unfold removed, emits, filled, opened, emit, set_disk; simpl.
      rewrite <- !app_assoc. split; [reflexivity|].
      apply Forall_app. split; [done|]. constructor; [done|].
      apply Forall_app. split; [by apply appends_concern|].
      by constructor.
Qed.

(** X12. A call of [write_solution_to_file] for a mission whose [url_name]
    has no slash stays in the working directory and leaves every path but
    that of its own file as it was, whether it returns or raises; it makes
    no directory, and every disk action it logs is on that file. *)
Theorem write_touches_only_its_file browser m w r w' :
  Str.forallb not_slash (url_name m) = true ->
  write_solution_to_file browser m w = (r, w') ->
  cwd w' = cwd w
  /\ (forall q, q ≠ cwd w ++ [url_name m +:+ ".py"] ->
                fs w' !! q = fs w !! q)
  /\ exists l, log w' = log w ++ l
               /\ Forall (concerns (cwd w ++ [url_name m +:+ ".py"])) l.
Proof. apply write_solution_to_file_disk. Qed.

Lemma write_touches_only_its_file_witness :
  let w := section_world 20 in
  let w' := snd (write_solution_to_file Firefox add_mission w) in
  cwd w' = cwd w
  /\ (forall q, q ≠ cwd w ++ ["add" +:+ ".py"] -> fs w' !! q = fs w !! q)
  /\ exists l, log w' = log w ++ l
               /\ Forall (concerns (cwd w ++ ["add" +:+ ".py"])) l.
Proof.
  intros w w'.
  apply (write_touches_only_its_file Firefox add_mission w
           (Raise (OSError NoSpaceError)) w').
  - reflexivity.
  - vm_compute. reflexivity.
Defined.

Lemma on_disk_lines_plain_dir name w code :
  plain_name name = true ->
  on_disk_lines name w = Some code ->
  fs w !! cwd w = Some Dir.
Proof.
  intros Hp. unfold on_disk_lines, read_text. rewrite (locate_plain _ _ Hp).
  by destruct (fs w !! cwd w) as [[|c]|].
Qed.

Lemma header_line_inj title a b :
  header_line title a = header_line title b -> a = b.
Proof.
  unfold header_line. intros H.
  by repeat apply (inj (String.app _)) in H.
Qed.

(** X13. The same solution at another reading of the clock is written
    again: when the file holds the fetched lines under a header with
    another time, and there is room, the file is opened for writing and
    ends up with the new header and the lines. *)
Theorem changed_header_is_rewritten browser m w ls w1 old :
  get_solution browser (url_name m) w = (Ok (Some ls), w1) ->
  ls ≠ [] ->
  Str.forallb not_slash (url_name m) = true ->
  on_disk_lines (filename_of m) (stamped w1)
  = Some (header_line (title m) old :: ls) ->
  old ≠ now_c (remote w1) (ticks w1) ->
  let p := cwd w1 ++ [url_name m +:+ ".py"] in
  let code := header_line (title m) (now_c (remote w1) (ticks w1)) :: ls in
  String.length (unlines code) <= free w1 + size_at p w1 ->
  exists w' l,
    write_solution_to_file browser m w = (Ok tt, w')
    /\ fs w' !! p = Some (File (unlines code))
    /\ log w' = log w1 ++ OpenW p :: l.
Proof.
  intros Hg Hls Hslug Hdisk Hold p code Hroom.
  pose proof (filename_plain _ Hslug) as Hplain.
  fold (filename_of m) in Hplain.
  rewrite (write_solution_to_file_fetch _ _ _ _ _ Hg).
  destruct ls as [|x ls]; [done|]. simpl falsy_lines. cbv iota zeta.
  simpl default. change (code_of m w1 (x :: ls)) with code.
  rewrite bool_decide_eq_false_2.
  2:{ rewrite Hdisk. intros H. apply Hold.
      apply (header_line_inj (title m)). unfold code in H. congruence. }
  destruct (overwrite_cases (filename_of m) code (stamped w1))
    as [(o & Ho & _)|[(q & Ho & _ & _ & ->)|(q & l & Ho & _ & Hfull & _)]].
  - exfalso.
    pose proof (on_disk_lines_plain_dir _ _ _ Hplain Hdisk) as Hdir.
    apply (on_disk_lines_plain _ _ _ Hplain) in Hdisk as (c & Hc & _).
    unfold open_w in Ho. rewrite (locate_plain _ _ Hplain), Hdir, Hc in Ho.
    discriminate.
  - apply (open_w_plain _ _ _ _ Hplain) in Ho as [-> _].
    eexists _, _. split; [reflexivity|].
    unfold emits, filled, opened, emit, set_disk; simpl.
    split; [by rewrite lookup_insert_eq|]. by rewrite <- app_assoc.
  - exfalso. apply (open_w_plain _ _ _ _ Hplain) in Ho as [-> _].
    apply Nat.lt_nge in Hfull. apply Hfull. exact Hroom.
Qed.

Lemma changed_header_is_rewritten_witness :
  let w := snd (write_solution_to_file Firefox add_mission
                  (fresh_world ticking_site 100)) in
  let w1 := snd (get_solution Firefox "add" w) in
  let p := cwd w1 ++ ["add" +:+ ".py"] in
  let code := header_line "Add" (now_c (remote w1) (ticks w1)) :: ["a=1"] in
  exists w' l,
    write_solution_to_file Firefox add_mission w = (Ok tt, w')
    /\ fs w' !! p = Some (File (unlines code))
    /\ log w' = log w1 ++ OpenW p :: l.
Proof.
  intros w w1.
  apply (changed_header_is_rewritten Firefox add_mission w ["a=1"] w1
           "tick 0").
  - vm_compute. reflexivity.
  - discriminate.
  - reflexivity.
  - vm_compute. reflexivity.
  - vm_compute. discriminate.
  - vm_compute. lia.
Defined.

(** X14. When a directory has the name of the mission's file,
    [write_solution_to_file] raises [IsADirectoryError] after the fetch:
    the comparison does not apply, the open for writing fails, the removal
    in the handler fails in the same way, and the disk is as before. *)
Theorem write_onto_directory browser m w ls w1 :
  get_solution browser (url_name m) w = (Ok (Some ls), w1) ->
  ls ≠ [] ->
  Str.forallb not_slash (url_name m) = true ->
  fs w !! cwd w = Some Dir ->
  fs w !! (cwd w ++ [url_name m +:+ ".py"]) = Some Dir ->
  write_solution_to_file browser m w
  = (Raise (OSError IsADirectoryError), stamped w1)
  /\ fs (stamped w1) = fs w.
Proof.
  intros Hg Hls Hslug Hcwd Hdir.
  pose proof (filename_plain _ Hslug) as Hplain.
  fold (filename_of m) in Hplain, Hdir.
  destruct (get_solution_runs browser (url_name m) w)
    as (r' & n & l & Hg' & _).
  rewrite Hg in Hg'. injection Hg' as _ Hw1.
  assert (Hcwd2 : fs (stamped w1) !! cwd (stamped w1) = Some Dir)
    by (by rewrite Hw1).
  assert (Hdir2 : fs (stamped w1) !! (cwd (stamped w1) ++ [filename_of m])
                  = Some Dir) by (by rewrite Hw1).
  split; [|by rewrite Hw1].
  rewrite (write_solution_to_file_fetch _ _ _ _ _ Hg).
  destruct ls as [|x ls]; [done|]. simpl falsy_lines. cbv iota zeta.
  rewrite bool_decide_eq_false_2.
  2:{ unfold on_disk_lines, read_text.
      by rewrite (locate_plain _ _ Hplain), Hcwd2, Hdir2. }
  assert (Ho : open_w (filename_of m) (stamped w1)
               = (Raise (OSError IsADirectoryError), stamped w1)).
  { unfold open_w. by rewrite (locate_plain _ _ Hplain), Hcwd2, Hdir2. }
  destruct (overwrite_cases (filename_of m)
              (code_of m w1 (default [] (Some (x :: ls)))) (stamped w1))
    as [(o & Ho' & ->)|[(q & Ho' & _)|(q & l' & Ho' & _)]];
    rewrite Ho in Ho'; [|discriminate..].
  by injection Ho' as <-.
Qed.

Lemma write_onto_directory_witness :
  let w1 := snd (get_solution Firefox "add" occupied_world) in
  write_solution_to_file Firefox add_mission occupied_world
  = (Raise (OSError IsADirectoryError), stamped w1)
  /\ fs (stamped w1) = fs occupied_world.
Proof.
  intros w1.
  apply (write_onto_directory Firefox add_mission occupied_world
           ["a=1"; "b=2"] w1).
  - vm_compute. reflexivity.
  - discriminate.
  - reflexivity.
  - vm_compute. reflexivity.
  - vm_compute. reflexivity.
Defined.

(** ** One section *)

(** X15. A mission whose editor shows no line at all counts as a failed
    download: the loop of [download_section] reads the editor once, writes
    nothing and adds the error line of the mission. *)
Theorem empty_solution_is_an_error section_name m rest errors w browser :
  g_browser w = Some browser ->
  ace_reads (remote w) (reads w) = ReadLines [] ->
  download_section_loop section_name (m :: rest) errors w
  = download_section_loop section_name rest
      (errors ++ [section_name +:+ ": " +:+ title m])
      (progressed 1
         (navigation (g_VERBOSE w) (url_name m) ++ [FindLines "ace_line"]) w).
Proof.
  intros Hb Hread.
  rewrite (download_section_loop_cons _ _ _ _ _ _ Hb).
  assert (Hg : get_solution browser (url_name m) w
               = (Ok (Some []),
                  progressed (0 + 1)
                    (navigation (g_VERBOSE w) (url_name m)
                     ++ failed_attempts (g_VERBOSE w) 0 0
                     ++ [FindLines "ace_line"]) w)).
  { apply get_solution_success; [unfold PAGE_RETRIES; lia| |].
    - intros j Hj. lia.
    - by rewrite Nat.add_0_r. }
  rewrite (write_solution_to_file_fetch _ _ _ _ _ Hg). reflexivity.
Qed.

Lemma empty_solution_is_an_error_witness :
  let w := fresh_world empty_editor_site 100 in
  download_section_loop "Basics" [add_mission] [] w
  = download_section_loop "Basics" [] ([] ++ ["Basics" +:+ ": " +:+ "Add"])
      (progressed 1 (navigation false "add" ++ [FindLines "ace_line"]) w).
Proof.
  intros w.
  apply (empty_solution_is_an_error "Basics" add_mission [] [] w Firefox);
    reflexivity.
Defined.

Lemma filter_none p s :
  Str.forallb (fun c => negb (p c)) s = true -> Str.filter p s = "".
Proof.
  induction s as [|c s IH]; [reflexivity|]. simpl.
  intros [Hc Hs]%andb_prop. apply negb_true_iff in Hc. rewrite Hc.
  by apply IH.
Qed.

(** X16. A section whose name has no alphanumeric character gets no
    folder: [download_section] prints its banner, fetches nothing and
    returns the one line that the folder could not be made. *)
Theorem section_without_letters section_name missions w gl :
  Str.forallb (fun c => negb (Str.char_isalnum c)) section_name = true ->
  g_mission_list w = Some gl ->
  download_section section_name missions w
  = (Ok ["Unable to create folder for section: " +:+ section_name],
     emit (section_banner section_name (List.length gl)) w).
Proof.
  intros Hname Hgl. unfold download_section.
  erewrite bind_ok by (unfold global; rewrite Hgl; reflexivity).
  erewrite bind_ok by reflexivity. erewrite bind_ok by reflexivity.
  rewrite (filter_none _ _ Hname).
  erewrite bind_ok; [|unfold try_except; erewrite bind_raise by reflexivity;
                      reflexivity].
  reflexivity.
Qed.

Lemma section_without_letters_witness :
  download_section "?!" [] (section_world 100)
  = (Ok ["Unable to create folder for section: " +:+ "?!"],
     emit (section_banner "?!" (List.length [add_mission]))
       (section_world 100)).
Proof.
  apply (section_without_letters "?!" [] (section_world 100) [add_mission]);
    reflexivity.
Defined.

(** X17. [download_section] reads the module-level [browser] inside its
    loop. Where that name is not bound and the global list is not empty,
    the folder is made and entered, the [NameError] leaves through the
    handler for [IOError], and the script is left inside the folder of the
    section. *)
Theorem unbound_browser_strands section_name missions w m rest w1 :
  g_browser w = None ->
  g_mission_list w = Some (m :: rest) ->
  create_and_switch_to_dir (dir_name_of section_name)
    (emit (section_banner section_name (S (List.length rest))) w)
  = (Ok tt, w1) ->
  download_section section_name missions w = (Raise (NameError "browser"), w1)
  /\ cwd w1 = cwd w ++ [Str.filter Str.char_isalnum section_name]
  /\ cwd w1 ≠ cwd w.
Proof.
  intros Hb Hgl Hc.
  destruct (create_section_dir section_name
              (emit (section_banner section_name (S (List.length rest))) w))
    as [(o & Hc')|(w1' & l & Hc' & _ & _ & Hcwd & _ & _ & _ & _ & _ & _
                   & Hb1 & Hgl1 & _)]; rewrite Hc in Hc'; [discriminate|].
  injection Hc' as <-. simpl in Hcwd, Hb1, Hgl1.
  split; [|split; [exact Hcwd|rewrite Hcwd; intros E; symmetry in E;
                              by apply path_snoc_ne in E]].
  unfold download_section.
  erewrite bind_ok by (unfold global; rewrite Hgl; reflexivity).
  erewrite bind_ok by reflexivity. erewrite bind_ok by reflexivity.
  erewrite bind_ok;
    [|unfold try_except; erewrite bind_ok by exact Hc; reflexivity].
  change (negb true) with false. cbv iota.
  erewrite bind_ok by (unfold global; rewrite Hgl1, Hgl; reflexivity).
  erewrite bind_raise; [reflexivity|].
  cbn [download_section_loop]. erewrite bind_raise; [reflexivity|].
  unfold try_except.
  erewrite bind_raise by (unfold global; rewrite Hb1, Hb; reflexivity).
  reflexivity.
Qed.

Lemma unbound_browser_strands_witness :
  let w1 := snd (create_and_switch_to_dir "Basics"
                   (emit (section_banner "Basics" 1) unbound_world)) in
  download_section "Basics" [] unbound_world
  = (Raise (NameError "browser"), w1)
  /\ cwd w1 = cwd unbound_world ++ [Str.filter Str.char_isalnum "Basics"]
  /\ cwd w1 ≠ cwd unbound_world.
Proof.
  intros w1.
  apply (unbound_browser_strands "Basics" [] unbound_world add_mission [] w1).
  - reflexivity.
  - reflexivity.
  - vm_compute. reflexivity.
Defined.

Lemma filter_app p a b :
  Str.filter p (a +:+ b) = Str.filter p a +:+ Str.filter p b.
Proof.
  induction a as [|c a IH]; [reflexivity|]. rewrite str_app_cons. simpl.
  destruct (p c); by rewrite IH.
Qed.

Lemma filter_filter p s : Str.filter p (Str.filter p s) = Str.filter p s.
Proof.
  induction s as [|c s IH]; [reflexivity|]. simpl.
  destruct (p c) eqn:E; [|exact IH]. simpl. by rewrite E, IH.
Qed.

(** X18. The folder of a section does not tell names apart that differ in
    characters that are not alphanumeric: leaving such a character out of
    the section name gives the same folder, and the folder name of a
    folder name is itself. *)
Theorem dir_name_ignores_punctuation a c b :
  Str.char_isalnum c = false ->
  Str.filter Str.char_isalnum (a +:+ String c b)
  = Str.filter Str.char_isalnum (a +:+ b)
  /\ Str.filter Str.char_isalnum (Str.filter Str.char_isalnum (a +:+ b))
     = Str.filter Str.char_isalnum (a +:+ b).
Proof.
  intros Hc. split; [|apply filter_filter].
  rewrite !filter_app. simpl. by rewrite Hc.
Qed.

Lemma dir_name_ignores_punctuation_witness :
  Str.filter Str.char_isalnum ("Home" +:+ String "-" "Work")
  = Str.filter Str.char_isalnum ("Home" +:+ "Work")
  /\ Str.filter Str.char_isalnum
       (Str.filter Str.char_isalnum ("Home" +:+ "Work"))
     = Str.filter Str.char_isalnum ("Home" +:+ "Work").
Proof.
  apply (dir_name_ignores_punctuation "Home" "-" "Work"). reflexivity.
Defined.

(** ** Messages *)

Lemma failed_attempts_silent a k :
  Forall (fun e => is_print e = false) (failed_attempts false a k).
Proof.
  revert a. induction k as [|k IH]; intros a; [constructor|].
  simpl. constructor; [done|]. constructor; [done|]. apply IH.
Qed.

(** X19. Without the verbose flag [get_solution] prints nothing, whatever
    the editor does. *)
Theorem get_solution_quiet browser mission w :
  g_VERBOSE w = false ->
  exists r n l,
    get_solution browser mission w = (Ok r, progressed n l w)
    /\ Forall (fun e => is_print e = false) l.
Proof.
  intros Hv.
  destruct (reads_dichotomy w (PAGE_RETRIES + 1))
    as [(k & ls & Hk & Hst & Hls)|Hst].
  - eexists _, _, _. split.
    + apply (get_solution_success _ _ _ k ls); try done. lia.
    + rewrite Hv. unfold navigation. simpl. constructor; [done|].
      apply Forall_app. split; [apply failed_attempts_silent|].
      by constructor.
  - eexists _, _, _. split.
    + apply get_solution_exhausted, Hst.
    + rewrite Hv. unfold navigation, exhausted_note.
      cbn [app]. constructor; [done|].
      apply Forall_app. split; [apply failed_attempts_silent|constructor].
Qed.

Lemma get_solution_quiet_witness :
  exists r n l,
    get_solution Firefox "add" sample_world = (Ok r, progressed n l sample_world)
    /\ Forall (fun e => is_print e = false) l.
Proof. apply (get_solution_quiet Firefox "add" sample_world). reflexivity. Defined.

(** ** The comparison with the file on disk *)

Lemma universal_newlines_app_crlf line rest :
  one_line line = true ->
  Str.universal_newlines (line +:+ String Str.CR (String Str.LF rest))
  = line +:+ String Str.LF (Str.universal_newlines rest).
Proof.
  induction line as [|c line IH]; intros Hl.
  - reflexivity.
  - unfold one_line in Hl. simpl in Hl. apply andb_prop in Hl as [Hc Hl].
    apply negb_true_iff in Hc. rewrite !str_app_cons.
    cbn [Str.universal_newlines]. rewrite (linebreak_cr _ Hc).
    by rewrite IH.
Qed.

Lemma splitlines_crlf_unlines code :
  Forall (fun line => one_line line = true) code ->
  Str.splitlines (Str.universal_newlines (crlf_unlines code)) = code.
Proof.
  unfold Str.splitlines. induction 1 as [|line rest Hl _ IH]; [reflexivity|].
  cbn [crlf_unlines].
  rewrite universal_newlines_app_crlf, splitlines_from_app_lf by done.
  by rewrite str_app_nil_l, IH.
Qed.

(** X20. The comparison is by lines, not by characters: a file that holds
    the composed lines with carriage return and line feed at the end of
    each counts as identical and is left as it is. *)
Theorem crlf_file_is_identical browser m w ls w1 :
  get_solution browser (url_name m) w = (Ok (Some ls), w1) ->
  ls ≠ [] ->
  Str.forallb not_slash (url_name m) = true ->
  let code := header_line (title m) (now_c (remote w1) (ticks w1)) :: ls in
  Forall (fun line => one_line line = true) code ->
  fs w !! cwd w = Some Dir ->
  fs w !! (cwd w ++ [url_name m +:+ ".py"]) = Some (File (crlf_unlines code)) ->
  write_solution_to_file browser m w = (Ok tt, stamped w1)
  /\ fs (stamped w1) = fs w.
Proof.
  intros Hg Hls Hslug code Hcode Hcwd Hfile.
  pose proof (filename_plain _ Hslug) as Hplain.
  fold (filename_of m) in Hplain, Hfile.
  destruct (get_solution_runs browser (url_name m) w)
    as (r' & n & l & Hg' & _).
  rewrite Hg in Hg'. injection Hg' as _ Hw1.
  split; [|by rewrite Hw1].
  rewrite (write_solution_to_file_fetch _ _ _ _ _ Hg).
  destruct ls as [|x ls]; [done|]. simpl falsy_lines. cbv iota zeta.
  simpl default. change (code_of m w1 (x :: ls)) with code.
  rewrite bool_decide_eq_true_2; [reflexivity|].
  unfold on_disk_lines, read_text. rewrite (locate_plain _ _ Hplain).
  rewrite Hw1. cbn [fs cwd stamped set_ticks progressed].
  by rewrite Hcwd, Hfile, splitlines_crlf_unlines.
Qed.

Lemma crlf_file_is_identical_witness :
  let w1 := snd (get_solution Firefox "add" crlf_world) in
  write_solution_to_file Firefox add_mission crlf_world = (Ok tt, stamped w1)
  /\ fs (stamped w1) = fs crlf_world.
Proof.
  intros w1.
  apply (crlf_file_is_identical Firefox add_mission crlf_world
           ["a=1"; "b=2"] w1).
  - vm_compute. reflexivity.
  - discriminate.
  - reflexivity.
  - repeat constructor.
  - vm_compute. reflexivity.
  - vm_compute. reflexivity.
Defined.

(** ** Where a section writes *)





